(** * cubefs-csi: the volume lifecycle controller, embedded and verified

    A shallow embedding of
      - [pkg/cubefs/cfs_server.go]        (module [cubefs])
      - [pkg/chubaofs/controllerserver.go] (module [chubaofs])
    together with the few library functions they call (module [golang] for
    the Go runtime idioms, module [k8s_util] for the volume-size helpers of
    k8s.io/kubernetes/pkg/volume/util).

    Conventions of the embedding:
      - Go [int64] and [int] values are [Z]; the only narrowing conversion of
        the code, [int(...)] inside [RoundUpSizeInt], is written with its
        wrap-around.
      - Go [string] is [string] (a sequence of bytes), [len] is
        [String.length].
      - Go [map[string]string] is [gmap string string]; reading a missing key
        yields the empty string ([go_get]).
      - a Go [error] is [option error] ([None] is [nil]); a Go result pair
        [(T, error)] is [result T].
      - the outside world (network, cluster) is threaded explicitly through a
        state monad [M]; what is handed to glog is appended to the [glog]
        component of the world. *)

From Stdlib Require Import ZArith String Ascii List Lia DecimalString.
From stdpp Require Import base gmap strings list.

Local Open Scope string_scope.
Local Open Scope Z_scope.
Local Open Scope list_scope.

(** ** Go runtime idioms *)
Module golang.

(** [google.golang.org/grpc/codes]: the status codes the two files use. *)
Inductive codes_Code : Type :=
| InvalidArgument
| Unimplemented
| Internal
| Unavailable.

(** A Go [error] value: either a gRPC status ([status.Error],
    [status.Errorf]) or a plain formatted error ([fmt.Errorf]). *)
Inductive error : Type :=
| status_Error (c : codes_Code) (msg : string)
| fmt_Errorf (msg : string).

(** The pair [(T, error)] returned by fallible Go functions: the code of
    both files returns either [(v, nil)] or [(nil, err)]. *)
Inductive result (T : Type) : Type :=
| Ok (v : T)
| Err (e : error).
Arguments Ok {T} v.
Arguments Err {T} e.

Definition is_status (c : codes_Code) (e : error) : Prop :=
  exists msg, e = status_Error c msg.

(** [codes.Code.String()]. *)
Definition codes_Code_String (c : codes_Code) : string :=
  match c with
  | InvalidArgument => "InvalidArgument"
  | Unimplemented => "Unimplemented"
  | Internal => "Internal"
  | Unavailable => "Unavailable"
  end.

(** [err.Error()]. *)
Definition error_Error (e : error) : string :=
  match e with
  | status_Error c msg =>
      "rpc error: code = " +:+ codes_Code_String c +:+ " desc = " +:+ msg
  | fmt_Errorf msg => msg
  end.

(** [fmt.Sprintf("%v", n)] and ["%d"] for an integer. *)
Definition fmt_int (n : Z) : string := NilEmpty.string_of_int (Z.to_int n).

(** [m[key]] on a [map[string]string]: the zero value for a missing key. *)
Definition go_get (m : gmap string string) (key : string) : string :=
  default "" (m !! key).

(** [strings.Split(s, sep)] for a one-byte separator: the pieces between
    the separators, empty pieces included; never the empty slice. *)
Fixpoint strings_Split1 (s : string) (sep : ascii) : list string :=
  match s with
  | EmptyString => [EmptyString]
  | String c s' =>
      if Ascii.eqb c sep then EmptyString :: strings_Split1 s' sep
      else match strings_Split1 s' sep with
           | [] => [String c EmptyString]
           | piece :: pieces => String c piece :: pieces
           end
  end.

(** [strings.Compare(a, b)]: -1, 0 or +1 by byte-wise lexical order. *)
Definition strings_Compare (a b : string) : Z :=
  match String.compare a b with
  | Eq => 0
  | Lt => -1
  | Gt => 1
  end.

(** *** The world and the state monad *)

Inductive Severity : Type := INFO | WARNING | ERROR.

(** An argument of a glog format string. *)
Inductive fmt_arg : Type :=
| arg_string (s : string)
| arg_int (n : Z)
| arg_error (e : error).

(** One call of [glog.Infof], [glog.Warningf] or [glog.Errorf]: the format
    and its arguments, as passed. *)
Record glog_entry : Type := mk_glog_entry
  { severity : Severity; format : string; args : list fmt_arg }.

Record World (σ : Type) : Type := mk_World
  { ext : σ;                      (* everything outside the process *)
    glog : list glog_entry }.     (* log lines, oldest first *)
Arguments mk_World {σ} ext glog.
Arguments ext {σ} w.
Arguments glog {σ} w.

Definition M (σ A : Type) : Type := World σ -> A * World σ.

Definition ret {σ A} (a : A) : M σ A := fun w => (a, w).

Definition bind {σ A B} (c : M σ A) (k : A -> M σ B) : M σ B :=
  fun w => let '(a, w') := c w in k a w'.

Definition glog_write {σ} (sev : Severity) (fmt : string)
    (xs : list fmt_arg) : M σ unit :=
  fun w => (tt, mk_World (ext w) (glog w ++ [mk_glog_entry sev fmt xs])).

(** An operation on the outside world alone. *)
Definition on_ext {σ A} (op : σ -> A * σ) : M σ A :=
  fun w => let '(a, s') := op (ext w) in (a, mk_World s' (glog w)).

End golang.
Export golang.

Notation "'let*' x := c 'in' k" := (bind c (fun x => k))
  (at level 10, x pattern, c at level 100, k at level 200).
Notation "c ;; k" := (bind c (fun _ => k))
  (at level 100, k at level 200, right associativity).

(** Settles the comparisons of two key constants. *)
Ltac decide_keys :=
  repeat first [ rewrite decide_True by reflexivity
               | rewrite decide_False by discriminate ].

(** ** k8s.io/kubernetes/pkg/volume/util *)
Module k8s_util.

(** Modelled from the spec: [util.GIB] of the external package
    k8s.io/kubernetes/pkg/volume/util, the one-GiB unit. *)
Definition GIB : Z := 1024 * 1024 * 1024.

(** Go's [int] on the 64-bit targets the driver is built for. *)
Definition int_of_int64 (n : Z) : Z :=
  (n + 2 ^ 63) mod 2 ^ 64 - 2 ^ 63.

(** Modelled from the spec: [util.RoundUpSize] of the same package, the
    rounding up to the nearest whole unit: how many allocation units are
    needed to hold the size, written as the package does it; [/] and [%]
    are Go's truncating division and remainder. *)
Definition RoundUpSize (volumeSizeBytes allocationUnitBytes : Z) : Z :=
  let roundedUp := Z.quot volumeSizeBytes allocationUnitBytes in
  if 0 <? Z.rem volumeSizeBytes allocationUnitBytes
  then roundedUp + 1 else roundedUp.

(** Modelled from the spec: [util.RoundUpSizeInt] of the same package, the
    function [CreateVolume] calls: [RoundUpSize] as an [int], or an error
    when the conversion overflows. *)
Definition RoundUpSizeInt (size allocationUnitBytes : Z) : result Z :=
  let roundedUp := RoundUpSize size allocationUnitBytes in
  let roundedUpInt := int_of_int64 roundedUp in
  if roundedUpInt =? roundedUp then Ok roundedUpInt
  else Err (fmt_Errorf
              ("capacity " +:+ fmt_int roundedUp +:+
               " is too great, casting results in integer overflow")).

End k8s_util.

(** ** pkg/cubefs/cfs_server.go *)
Module cubefs.

Definition KVolumeName : string := "volName".
Definition KMasterAddr : string := "masterAddr".
Definition KLogLevel : string := "logLevel".
Definition KLogDir : string := "logDir".
Definition KOwner : string := "owner".
Definition KMountPoint : string := "mountPoint".
Definition KExporterPort : string := "exporterPort".
Definition KProfPort : string := "profPort".
Definition KCrossZone : string := "crossZone".
Definition KEnableToken : string := "enableToken".
Definition KZoneName : string := "zoneName".
Definition KConsulAddr : string := "consulAddr".
Definition KVolType : string := "volType".

Definition defaultClientConfPath : string := "/cfs/conf/".
Definition defaultLogDir : string := "/cfs/logs/".
Definition defaultLogLevel : string := "info".
Definition jsonFileSuffix : string := ".json".
Definition defaultConsulAddr : string :=
  "http://consul-service.cubefs.svc.cluster.local:8500".
Definition defaultVolType : string := "0".

Definition ErrCodeVolNotExists : Z := 7.
Definition ErrCodeDuplicateVol : Z := 12.

Record cfsServer : Type := mk_cfsServer
  { clientConfFile : string;
    masterAddrs : list string;
    clientConf : gmap string string }.

(** Create and Delete Volume Response *)
Record cfsServerResponse : Type := mk_cfsServerResponse
  { Code : Z; Msg : string; Data : string }.

Definition getValueWithDefault (param : gmap string string)
    (key defaultValue : string) : string :=
  let value := go_get param key in
  if (String.length value =? 0)%nat then defaultValue else value.

(** *** The parameter normalizer *)
Section normalizer.

(** [csicommon.ShortenString], of the package pkg/csi-common: taken as
    given. *)
Variable ShortenString : string -> Z -> string.

(** [now] is the reading of [time.Now().UnixNano()]. The map [param] is
    updated in place, assignment after assignment; the resulting map is
    at once the caller's map after the call and the server's
    [clientConf]. *)
Definition newCfsServer (now : Z) (volName : string)
    (param : gmap string string) : result cfsServer :=
  let masterAddr := go_get param KMasterAddr in
  if ((String.length volName =? 0) || (String.length masterAddr =? 0))%nat
  then Err (fmt_Errorf "invalid argument for initializing cfsServer")
  else
    let newVolName := getValueWithDefault param KVolumeName volName in
    let clientConfFile' :=
      defaultClientConfPath +:+ newVolName +:+ jsonFileSuffix in
    let newOwner := ShortenString ("csi_" +:+ fmt_int now) 20 in
    let param := <[KMasterAddr := masterAddr]> param in
    let param := <[KVolumeName := newVolName]> param in
    let param :=
      <[KOwner := getValueWithDefault param KOwner newOwner]> param in
    let param :=
      <[KLogLevel :=
          getValueWithDefault param KLogLevel defaultLogLevel]> param in
    let param := <[KLogDir := defaultLogDir +:+ newVolName]> param in
    let param :=
      <[KConsulAddr :=
          getValueWithDefault param KConsulAddr defaultConsulAddr]> param in
    let param :=
      <[KVolType :=
          getValueWithDefault param KVolType defaultVolType]> param in
    Ok (mk_cfsServer clientConfFile'
          (strings_Split1 masterAddr ","%char) param).

End normalizer.

(** *** The control-plane client *)

(** What one HTTP round trip of [executeRequest] can come to: [http.Get]
    fails, reading the body fails, the body does not decode, or a decoded
    reply. The texts are the [Error()] strings of the library errors. *)
Inductive http_outcome : Type :=
| GetFailed (err : string)
| ReadFailed (bodyLen : Z) (err : string)
| UnmarshalFailed (msg : string) (err : string)
| Replied (resp : cfsServerResponse).

Section client.

Context {σ : Type}.

(** The network and the cluster behind it: one GET of a URL. *)
Variable http_roundtrip : string -> σ -> http_outcome * σ.

(** [crypto/md5] followed by [hex.EncodeToString]. A [hash.Hash] never
    fails to [Write], so the error branch of [getOwnerMd5] is dead. *)
Variable md5_hex : string -> string.

Definition executeRequest (cs : cfsServer) (url : string)
    : M σ (result cfsServerResponse) :=
  let* o := on_ext (http_roundtrip url) in
  match o with
  | GetFailed err =>
      ret (Err (status_Error Unavailable
        ("request url failed, url(" +:+ url +:+ ") err(" +:+ err +:+ ")")))
  | ReadFailed bodyLen err =>
      ret (Err (status_Error Unavailable
        ("read http response body, url(" +:+ url +:+ ") bodyLen(" +:+
         fmt_int bodyLen +:+ ") err(" +:+ err +:+ ")")))
  | UnmarshalFailed msg err =>
      ret (Err (status_Error Unavailable
        ("unmarshal http response body, url(" +:+ url +:+ ") msg(" +:+
         msg +:+ ") err(" +:+ err +:+ ")")))
  | Replied resp => ret (Ok resp)
  end.

(** The loop of [forEachMasterAddr]; [err] is the named result, which
    holds what the last attempt returned. *)
Fixpoint forEachMasterAddr_loop (stage : string)
    (f : string -> M σ (option error)) (addrs : list string)
    (err : option error) : M σ (option error) :=
  match addrs with
  | [] => ret err
  | addr :: addrs' =>
      let* err := f addr in
      match err with
      | None => ret None                                   (* break *)
      | Some e =>
          glog_write WARNING "try %s with master %q failed: %v"
            [arg_string stage; arg_string addr; arg_error e];;
          forEachMasterAddr_loop stage f addrs' (Some e)
      end
  end.

Definition forEachMasterAddr (cs : cfsServer) (stage : string)
    (f : string -> M σ (option error)) : M σ (option error) :=
  let* err := forEachMasterAddr_loop stage f (masterAddrs cs) None in
  match err with
  | Some e =>
      glog_write ERROR "%s failed with all masters: %v"
        [arg_string stage; arg_error e];;
      ret (Some e)
  | None => ret None
  end.

Definition getOwnerMd5 (cs : cfsServer) : result string :=
  let owner := go_get (clientConf cs) KOwner in
  Ok (md5_hex owner).

(** The closure handed to [forEachMasterAddr] by [createVolume]. *)
Definition createVolume_attempt (cs : cfsServer)
    (valName : string) (capacityGB : Z)
    (owner crossZone token zone volType addr : string)
    : M σ (option error) :=
  let url :=
    "http://" +:+ addr +:+ "/admin/createVol?name=" +:+ valName +:+
    "&capacity=" +:+ fmt_int capacityGB +:+ "&owner=" +:+ owner +:+
    "&crossZone=" +:+ crossZone +:+ "&enableToken=" +:+ token +:+
    "&zoneName=" +:+ zone +:+ "&volType=" +:+ volType in
  glog_write INFO "createVol url: %v" [arg_string url];;
  let* r := executeRequest cs url in
  match r with
  | Err err => ret (Some err)
  | Ok resp =>
      if negb (Code resp =? 0) then
        if Code resp =? ErrCodeDuplicateVol then
          glog_write WARNING
            "duplicate to create volume. url(%v) code=%v msg: %v"
            [arg_string url; arg_int ErrCodeDuplicateVol;
             arg_string (Msg resp)];;
          ret None
        else
          ret (Some (fmt_Errorf
            ("create volume failed: url(" +:+ url +:+ ") code=(" +:+
             fmt_int (Code resp) +:+ "), msg: " +:+ Msg resp)))
      else ret None
  end.

Definition createVolume (cs : cfsServer) (capacityGB : Z)
    : M σ (option error) :=
  let valName := go_get (clientConf cs) KVolumeName in
  let owner := go_get (clientConf cs) KOwner in
  let crossZone := go_get (clientConf cs) KCrossZone in
  let token := go_get (clientConf cs) KEnableToken in
  let zone := go_get (clientConf cs) KZoneName in
  let volType := go_get (clientConf cs) KVolType in
  forEachMasterAddr cs "CreateVolume"
    (createVolume_attempt cs valName capacityGB owner crossZone token
       zone volType).

(** The closure handed to [forEachMasterAddr] by [deleteVolume]. *)
Definition deleteVolume_attempt (cs : cfsServer)
    (valName ownerMd5 addr : string) : M σ (option error) :=
  let url :=
    "http://" +:+ addr +:+ "/vol/delete?name=" +:+ valName +:+
    "&authKey=" +:+ ownerMd5 in
  glog_write INFO "deleteVol url: %v" [arg_string url];;
  let* r := executeRequest cs url in
  match r with
  | Err err => ret (Some err)
  | Ok resp =>
      if negb (Code resp =? 0) then
        if Code resp =? ErrCodeVolNotExists then
          glog_write WARNING
            ("volume[%s] not exists, assuming the volume has already " +:+
             "been deleted. code:%v, msg:%v")
            [arg_string valName; arg_int (Code resp);
             arg_string (Msg resp)];;
          ret None
        else
          ret (Some (fmt_Errorf
            ("delete volume[" +:+ valName +:+ "] is failed. code:" +:+
             fmt_int (Code resp) +:+ ", msg:" +:+ Msg resp)))
      else ret None
  end.

Definition deleteVolume (cs : cfsServer) : M σ (option error) :=
  match getOwnerMd5 cs with
  | Err err => ret (Some err)
  | Ok ownerMd5 =>
      let valName := go_get (clientConf cs) KVolumeName in
      forEachMasterAddr cs "DeleteVolume"
        (deleteVolume_attempt cs valName ownerMd5)
  end.

(** The closure handed to [forEachMasterAddr] by [expandVolume]. *)
Definition expandVolume_attempt (cs : cfsServer)
    (volName ownerMd5 : string) (capacityGB : Z) (addr : string)
    : M σ (option error) :=
  let url :=
    "http://" +:+ addr +:+ "/vol/expand?name=" +:+ volName +:+
    "&authKey=" +:+ ownerMd5 +:+ "&capacity=" +:+ fmt_int capacityGB in
  glog_write INFO "expandVolume url: %v" [arg_string url];;
  let* r := executeRequest cs url in
  match r with
  | Err err => ret (Some err)
  | Ok resp =>
      if negb (Code resp =? 0) then
        ret (Some (fmt_Errorf
          ("expand volume[" +:+ volName +:+ "] failed, code:" +:+
           fmt_int (Code resp) +:+ ", msg:" +:+ Msg resp)))
      else ret None
  end.

Definition expandVolume (cs : cfsServer) (capacityGB : Z)
    : M σ (option error) :=
  match getOwnerMd5 cs with
  | Err err => ret (Some err)
  | Ok ownerMd5 =>
      let volName := go_get (clientConf cs) KVolumeName in
      forEachMasterAddr cs "ExpandVolume"
        (expandVolume_attempt cs volName ownerMd5 capacityGB)
  end.

End client.

Definition defaultExporterPort : Z := 9513.
Definition defaultProfPort : Z := 10094.

(** *** The client config materializer *)
Section materializer.

Context {σ : Type}.

(** [getFreePort], of another file of the package: a port and an error. *)
Variable getFreePort : Z -> σ -> (Z * option error) * σ.

(** [os.Mkdir], [ioutil.WriteFile] on the file system of the node, and
    [json.Marshal] of the configuration map (bytes and an error). *)
Variable os_Mkdir : string -> Z -> σ -> option error * σ.
Variable ioutil_WriteFile : string -> string -> Z -> σ -> option error * σ.
Variable json_Marshal : gmap string string -> string * option error.

(** The map of the server is updated in place: the server is returned with
    the map as [persistClientConf] leaves it. The errors of [getFreePort],
    [os.Mkdir] and [json.Marshal] are dropped, as in the source; the modes
    are the octal 0777 and 0444. *)
Definition persistClientConf (cs : cfsServer) (mountPoint : string)
    : M σ (cfsServer * option error) :=
  let* (exporterPort, _) := on_ext (getFreePort defaultExporterPort) in
  let* (profPort, _) := on_ext (getFreePort defaultProfPort) in
  let conf := <[KMountPoint := mountPoint]> (clientConf cs) in
  let conf := <[KExporterPort := fmt_int exporterPort]> conf in
  let conf := <[KProfPort := fmt_int profPort]> conf in
  let cs := mk_cfsServer (clientConfFile cs) (masterAddrs cs) conf in
  let* _ := on_ext (os_Mkdir (go_get (clientConf cs) KLogDir) 511) in
  let '(clientConfBytes, _) := json_Marshal (clientConf cs) in
  let* err :=
    on_ext (ioutil_WriteFile (clientConfFile cs) clientConfBytes 292) in
  match err with
  | Some err =>
      ret (cs, Some (status_Error Internal
                       ("create client config file fail. err: " +:+
                        error_Error err)))
  | None =>
      glog_write INFO "create client config file success, volumeId:%v"
        [arg_string (go_get (clientConf cs) KVolumeName)];;
      ret (cs, None)
  end.

End materializer.

End cubefs.

(** ** github.com/container-storage-interface/spec/lib/go/csi

    The message types of the CSI library, as far as the controller reads or
    builds them. A getter on a nil pointer returns the zero value, as the
    generated Go code does. *)
Module csi.

Inductive ControllerServiceCapability_RPC_Type : Type :=
| ControllerServiceCapability_RPC_UNKNOWN
| ControllerServiceCapability_RPC_CREATE_DELETE_VOLUME
| ControllerServiceCapability_RPC_PUBLISH_UNPUBLISH_VOLUME
| ControllerServiceCapability_RPC_LIST_VOLUMES
| ControllerServiceCapability_RPC_GET_CAPACITY
| ControllerServiceCapability_RPC_CREATE_DELETE_SNAPSHOT
| ControllerServiceCapability_RPC_LIST_SNAPSHOTS.

#[global] Instance RPC_Type_eq_dec :
  EqDecision ControllerServiceCapability_RPC_Type.
Proof. solve_decision. Defined.

Definition RPC_Type_String (c : ControllerServiceCapability_RPC_Type)
    : string :=
  match c with
  | ControllerServiceCapability_RPC_UNKNOWN => "UNKNOWN"
  | ControllerServiceCapability_RPC_CREATE_DELETE_VOLUME =>
      "CREATE_DELETE_VOLUME"
  | ControllerServiceCapability_RPC_PUBLISH_UNPUBLISH_VOLUME =>
      "PUBLISH_UNPUBLISH_VOLUME"
  | ControllerServiceCapability_RPC_LIST_VOLUMES => "LIST_VOLUMES"
  | ControllerServiceCapability_RPC_GET_CAPACITY => "GET_CAPACITY"
  | ControllerServiceCapability_RPC_CREATE_DELETE_SNAPSHOT =>
      "CREATE_DELETE_SNAPSHOT"
  | ControllerServiceCapability_RPC_LIST_SNAPSHOTS => "LIST_SNAPSHOTS"
  end.

Record ControllerServiceCapability_RPC : Type :=
  { RPC_Type : ControllerServiceCapability_RPC_Type }.

(** The only member of the [Type] oneof is [Rpc]. *)
Record ControllerServiceCapability : Type :=
  { Rpc : option ControllerServiceCapability_RPC }.

Definition GetRpc (c : ControllerServiceCapability)
    : option ControllerServiceCapability_RPC := Rpc c.

Definition GetType (r : option ControllerServiceCapability_RPC)
    : ControllerServiceCapability_RPC_Type :=
  match r with
  | Some r => RPC_Type r
  | None => ControllerServiceCapability_RPC_UNKNOWN
  end.

Inductive VolumeCapability_AccessMode_Mode : Type :=
| VolumeCapability_AccessMode_UNKNOWN
| VolumeCapability_AccessMode_SINGLE_NODE_WRITER
| VolumeCapability_AccessMode_SINGLE_NODE_READER_ONLY
| VolumeCapability_AccessMode_MULTI_NODE_READER_ONLY
| VolumeCapability_AccessMode_MULTI_NODE_SINGLE_WRITER
| VolumeCapability_AccessMode_MULTI_NODE_MULTI_WRITER.

#[global] Instance Mode_eq_dec : EqDecision VolumeCapability_AccessMode_Mode.
Proof. solve_decision. Defined.

Record VolumeCapability_AccessMode : Type :=
  { Mode : VolumeCapability_AccessMode_Mode }.

Record VolumeCapability_MountVolume : Type :=
  { FsType : string; MountFlags : list string }.

(** The [access_type] oneof. *)
Inductive VolumeCapability_AccessType : Type :=
| VolumeCapability_Block
| VolumeCapability_Mount (m : VolumeCapability_MountVolume).

Record VolumeCapability : Type :=
  { AccessType : option VolumeCapability_AccessType;
    AccessMode : option VolumeCapability_AccessMode }.

(** Capabilities travel as pointers: [None] is a nil
    [*csi.VolumeCapability]. *)
Definition GetMount (cap : option VolumeCapability)
    : option VolumeCapability_MountVolume :=
  match cap with
  | Some c =>
      match AccessType c with
      | Some (VolumeCapability_Mount m) => Some m
      | _ => None
      end
  | None => None
  end.

Definition GetFsType (m : option VolumeCapability_MountVolume) : string :=
  match m with
  | Some m => FsType m
  | None => ""
  end.

Definition GetAccessMode (cap : option VolumeCapability)
    : option VolumeCapability_AccessMode :=
  match cap with
  | Some c => AccessMode c
  | None => None
  end.

Definition GetMode (a : option VolumeCapability_AccessMode)
    : VolumeCapability_AccessMode_Mode :=
  match a with
  | Some a => Mode a
  | None => VolumeCapability_AccessMode_UNKNOWN
  end.

Record CapacityRange : Type :=
  { RequiredBytes : Z; LimitBytes : Z }.

Definition GetRequiredBytes (r : option CapacityRange) : Z :=
  match r with
  | Some r => RequiredBytes r
  | None => 0
  end.

(** A slice field is [None] when nil; ranging over a nil slice visits
    nothing. *)
Definition slice (A : Type) : Type := option (list A).

Definition range {A} (s : slice A) : list A := default [] s.

Record CreateVolumeRequest : Type :=
  { Name : string;
    CapacityRange_ : option CapacityRange;
    VolumeCapabilities : slice (option VolumeCapability);
    Parameters : gmap string string }.

Record Volume : Type :=
  { CapacityBytes : Z;
    VolumeId : string;
    VolumeContext : gmap string string }.

Record CreateVolumeResponse : Type :=
  { Volume_ : Volume }.

Record ValidateVolumeCapabilitiesRequest : Type :=
  { vreq_VolumeId : string;
    vreq_VolumeContext : gmap string string;
    vreq_VolumeCapabilities : slice (option VolumeCapability);
    vreq_Parameters : gmap string string }.

Record ValidateVolumeCapabilitiesResponse_Confirmed : Type :=
  { conf_VolumeContext : gmap string string;
    conf_VolumeCapabilities : slice (option VolumeCapability);
    conf_Parameters : gmap string string }.

Record ValidateVolumeCapabilitiesResponse : Type :=
  { Confirmed : option ValidateVolumeCapabilitiesResponse_Confirmed;
    Message : string }.

Record DeleteVolumeRequest : Type :=
  { dreq_VolumeId : string;
    dreq_Secrets : gmap string string }.

Inductive DeleteVolumeResponse : Type := mk_DeleteVolumeResponse.

Inductive ControllerGetCapabilitiesRequest : Type :=
  mk_ControllerGetCapabilitiesRequest.

Record ControllerGetCapabilitiesResponse : Type :=
  { Capabilities : list ControllerServiceCapability }.

End csi.


(** ** pkg/chubaofs/controllerserver.go *)
Module chubaofs.
Import csi.

Definition KMountPoint : string := "mountPoint".
Definition KVolumeName : string := "volName".
Definition KMasterAddr : string := "masterAddr".
Definition KLogDir : string := "logDir".
Definition KWarnLogDir : string := "warnLogDir".
Definition KLogLevel : string := "logLevel".
Definition KOwner : string := "owner".
Definition KProfPort : string := "profPort".
Definition KLookupValid : string := "lookupValid".
Definition KIcacheTimeout : string := "icacheTimeout".
Definition KAttrValid : string := "attrValid".
Definition KEnSyncWrite : string := "enSyncWrite".
Definition KAutoInvalData : string := "autoInvalData".
Definition KRdonly : string := "rdonly".
Definition KWriteCache : string := "writecache".
Definition KKeepCache : string := "keepcache".

Definition MinVolumeSize : Z := k8s_util.GIB.

Definition defaultOwner : string := "chubaofs".
Definition defaultClientConfig : string := "/etc/chubaofs/fuse.json".

Record controllerServer : Type := mk_controllerServer
  { caps : list ControllerServiceCapability;
    masterAddress : string }.

(** The two request kinds [createOrDeleteVolume] is called with, declared
    in another file of the package. *)
Inductive volumeRequestType : Type :=
| createVolumeRequest
| deleteVolumeRequest.

Section controller.

Context {σ : Type}.

(** [createOrDeleteVolume], the function of this package that talks to the
    cluster, defined in another file of the package; it is taken as given:
    any effect on the world, any error. *)
Variable createOrDeleteVolume :
  volumeRequestType -> string -> string -> string -> Z -> M σ (option error).

Fixpoint getControllerServiceCapabilities_loop
    (cl : list ControllerServiceCapability_RPC_Type)
    (csc : list ControllerServiceCapability)
    : M σ (list ControllerServiceCapability) :=
  match cl with
  | [] => ret csc
  | cap :: cl' =>
      glog_write INFO "Enabling controller service capability: %v"
        [arg_string (RPC_Type_String cap)];;
      getControllerServiceCapabilities_loop cl'
        (csc ++ [{| Rpc := Some {| RPC_Type := cap |} |}])
  end.

Definition getControllerServiceCapabilities
    (cl : list ControllerServiceCapability_RPC_Type)
    : M σ (list ControllerServiceCapability) :=
  getControllerServiceCapabilities_loop cl [].

Definition NewControllerServer (masterAddress : string)
    : M σ controllerServer :=
  let* caps :=
    getControllerServiceCapabilities
      [ControllerServiceCapability_RPC_CREATE_DELETE_VOLUME] in
  ret (mk_controllerServer caps masterAddress).

Fixpoint validateControllerServiceRequest_loop
    (c : ControllerServiceCapability_RPC_Type)
    (caps : list ControllerServiceCapability) : option error :=
  match caps with
  | [] =>
      Some (status_Error InvalidArgument
              ("unsupported capability " +:+ RPC_Type_String c))
  | cap :: caps' =>
      if bool_decide (c = GetType (GetRpc cap)) then None
      else validateControllerServiceRequest_loop c caps'
  end.

Definition validateControllerServiceRequest (cs : controllerServer)
    (c : ControllerServiceCapability_RPC_Type) : option error :=
  if bool_decide (c = ControllerServiceCapability_RPC_UNKNOWN) then None
  else validateControllerServiceRequest_loop c (caps cs).

(** Lines 90-95 of [CreateVolume]: the mount options of the last capability
    that has any. *)
Definition CreateVolume_mountOptions
    (caps : list (option VolumeCapability))
    : option VolumeCapability_MountVolume :=
  fold_left
    (fun mountOptions cap =>
       match GetMount cap with
       | Some m => Some m
       | None => mountOptions
       end)
    caps None.

(** The verbosity-gated diagnostics [glog.V(n).Infof] of [CreateVolume] are
    left out; the second test of [err] (line 125) cannot fire, [err] being
    nil once line 112 is passed. *)
Definition CreateVolume (cs : controllerServer) (req : CreateVolumeRequest)
    : M σ (result CreateVolumeResponse) :=
  match validateControllerServiceRequest cs
          ControllerServiceCapability_RPC_CREATE_DELETE_VOLUME with
  | Some err => ret (Err err)
  | None =>
  if (String.length (Name req) =? 0)%nat then
    ret (Err (status_Error InvalidArgument "Name missing in request"))
  else
  match VolumeCapabilities req with
  | None =>
      ret (Err (status_Error InvalidArgument
                  "Volume Capabilities missing in request"))
  | Some caps =>
  let mountOptions := CreateVolume_mountOptions caps in
  match mountOptions with
  | None =>
      ret (Err (status_Error InvalidArgument
                  "Volume lack of mount access type"))
  | Some _ =>
  if negb (strings_Compare (GetFsType mountOptions) "chubaofs" =? 0) then
    ret (Err (status_Error InvalidArgument "Volume fstype is not chubaofs"))
  else
  let capacity := GetRequiredBytes (CapacityRange_ req) in
  let capacity :=
    if capacity <? MinVolumeSize then MinVolumeSize else capacity in
  match k8s_util.RoundUpSizeInt capacity k8s_util.GIB with
  | Err err => ret (Err (status_Error InvalidArgument (error_Error err)))
  | Ok capacityInGIB =>
  let paras := Parameters req in
  let owner := defaultOwner in
  let masterAddr := masterAddress cs in
  let volumeId := Name req in
  let* err :=
    createOrDeleteVolume createVolumeRequest masterAddr volumeId owner
      capacityInGIB in
  match err with
  | Some err => ret (Err err)
  | None =>
      ret (Ok {| Volume_ :=
                   {| VolumeId := volumeId;
                      CapacityBytes := capacity;
                      VolumeContext := paras |} |})
  end
  end
  end
  end
  end.

(** The loop of [ValidateVolumeCapabilities], which returns at the first
    capability of another access mode. *)
Fixpoint ValidateVolumeCapabilities_loop
    (caps : list (option VolumeCapability)) : option error :=
  match caps with
  | [] => None
  | cap :: caps' =>
      if bool_decide (GetMode (GetAccessMode cap) <>
                      VolumeCapability_AccessMode_MULTI_NODE_MULTI_WRITER)
      then Some (status_Error InvalidArgument
                   "No multi node multi writer capability")
      else ValidateVolumeCapabilities_loop caps'
  end.

Definition ValidateVolumeCapabilities (cs : controllerServer)
    (req : ValidateVolumeCapabilitiesRequest)
    : result ValidateVolumeCapabilitiesResponse :=
  match ValidateVolumeCapabilities_loop
          (range (vreq_VolumeCapabilities req)) with
  | Some err => Err err
  | None =>
      Ok {| Confirmed :=
              Some {| conf_VolumeContext := vreq_VolumeContext req;
                      conf_VolumeCapabilities := vreq_VolumeCapabilities req;
                      conf_Parameters := vreq_Parameters req |};
            Message := "" |}
  end.

(** [req.String()] of the CSI library, which renders the request for the
    log line. *)
Variable DeleteVolumeRequest_String : DeleteVolumeRequest -> string.

(** As for [CreateVolume], the verbosity-gated [glog.V(2).Infof] lines are
    left out; [glog.Errorf] is not gated. *)
Definition DeleteVolume (cs : controllerServer) (req : DeleteVolumeRequest)
    : M σ (result DeleteVolumeResponse) :=
  match validateControllerServiceRequest cs
          ControllerServiceCapability_RPC_CREATE_DELETE_VOLUME with
  | Some err =>
      glog_write ERROR "invalid delete volume req: %v"
        [arg_string (DeleteVolumeRequest_String req)];;
      ret (Err err)
  | None =>
  let volumeId := dreq_VolumeId req in
  let masterAddr := masterAddress cs in
  if String.eqb masterAddr "" then
    ret (Err (status_Error InvalidArgument
                ("chubaofs: cannot find master addr, volumeid(" +:+
                 volumeId +:+ ")")))
  else
  let* err :=
    createOrDeleteVolume deleteVolumeRequest masterAddr volumeId
      defaultOwner 0 in
  match err with
  | Some err => ret (Err err)
  | None => ret (Ok mk_DeleteVolumeResponse)
  end
  end.

Definition ControllerGetCapabilities (cs : controllerServer)
    (req : ControllerGetCapabilitiesRequest)
    : result ControllerGetCapabilitiesResponse :=
  Ok {| Capabilities := caps cs |}.

End controller.

(** *** The operations the controller does not implement

    Their request and response messages are never looked at, so the types
    are left open. *)
Section unimplemented.

Variables ControllerPublishVolumeRequest ControllerPublishVolumeResponse
  ControllerUnpublishVolumeRequest ControllerUnpublishVolumeResponse
  GetCapacityRequest GetCapacityResponse
  ListVolumesRequest ListVolumesResponse
  CreateSnapshotRequest CreateSnapshotResponse
  DeleteSnapshotRequest DeleteSnapshotResponse
  ListSnapshotsRequest ListSnapshotsResponse : Type.

Definition ControllerPublishVolume (cs : controllerServer)
    (req : ControllerPublishVolumeRequest)
    : result ControllerPublishVolumeResponse :=
  Err (status_Error Unimplemented "").

Definition ControllerUnpublishVolume (cs : controllerServer)
    (req : ControllerUnpublishVolumeRequest)
    : result ControllerUnpublishVolumeResponse :=
  Err (status_Error Unimplemented "").

Definition GetCapacity (cs : controllerServer) (req : GetCapacityRequest)
    : result GetCapacityResponse :=
  Err (status_Error Unimplemented "").

Definition ListVolumes (cs : controllerServer) (req : ListVolumesRequest)
    : result ListVolumesResponse :=
  Err (status_Error Unimplemented "").

Definition CreateSnapshot (cs : controllerServer)
    (req : CreateSnapshotRequest) : result CreateSnapshotResponse :=
  Err (status_Error Unimplemented "").

Definition DeleteSnapshot (cs : controllerServer)
    (req : DeleteSnapshotRequest) : result DeleteSnapshotResponse :=
  Err (status_Error Unimplemented "").

Definition ListSnapshots (cs : controllerServer)
    (req : ListSnapshotsRequest) : result ListSnapshotsResponse :=
  Err (status_Error Unimplemented "").

End unimplemented.

End chubaofs.

(** ** Observing a run

    To speak of which calls a run makes, the code is run unchanged on a
    world that carries, next to the outside state, a record of the calls:
    the observed function appends one entry each time it is called. *)
Module observe.

Definition trace {σ T} (w : World (σ * list T)) : list T := snd (ext w).

(** The same world without the record. *)
Definition erase {σ T} (w : World (σ * list T)) : World σ :=
  mk_World (fst (ext w)) (glog w).

(** [c], with the entry [entry a] recorded once it has returned [a]. *)
Definition traced {σ T A} (entry : A -> T) (c : M σ A) : M (σ * list T) A :=
  fun w =>
    let '(a, w') := c (erase w) in
    (a, mk_World (ext w', trace w ++ [entry a]) (glog w')).

(** An operation of the outside world, with each call and its outcome
    recorded. *)
Definition recorded {σ O} (op : string -> σ -> O * σ)
    : string -> σ * list (string * O) -> O * (σ * list (string * O)) :=
  fun url s =>
    let '(o, s') := op url (fst s) in
    (o, (s', snd s ++ [(url, o)])).

(** The attempt function [f] of [forEachMasterAddr], observed: each
    invocation is recorded with the endpoint and what it returned. *)
Definition observed_attempt {σ} (f : string -> M σ (option error))
    : string -> M (σ * list (string * option error)) (option error) :=
  fun addr => traced (fun r => (addr, r)) (f addr).

(** The error of the last recorded attempt, nil when there is none. *)
Definition last_error (tr : list (string * option error)) : option error :=
  match last tr with
  | Some (_, e) => e
  | None => None
  end.

(** A key the caller gave no value: missing from the map, or mapped to the
    empty string. *)
Definition absent_or_empty (m : gmap string string) (k : string) : Prop :=
  m !! k = None \/ m !! k = Some "".

(** The recorded round trip is a decoded reply whose result code is one of
    [codes]. *)
Definition reply_code_in (codes : list Z)
    (x : string * cubefs.http_outcome) : Prop :=
  match x.2 with
  | cubefs.Replied resp => cubefs.Code resp ∈ codes
  | _ => False
  end.

(** The checks a request has to pass before the cluster is called. *)
Definition passes_checks (cs : chubaofs.controllerServer)
    (req : csi.CreateVolumeRequest)
    : Prop :=
  chubaofs.validateControllerServiceRequest cs
    csi.ControllerServiceCapability_RPC_CREATE_DELETE_VOLUME = None
  /\ csi.Name req <> ""
  /\ exists caps m,
       csi.VolumeCapabilities req = Some caps
       /\ chubaofs.CreateVolume_mountOptions caps = Some m
       /\ csi.FsType m = "chubaofs".

(** One call of [createOrDeleteVolume], with its arguments. *)
Record cluster_call : Type := mk_cluster_call
  { call_kind : chubaofs.volumeRequestType;
    call_masterAddr : string;
    call_volName : string;
    call_owner : string;
    call_capacityGB : Z }.

(** [createOrDeleteVolume], observed: each call is recorded. *)
Definition observed_cluster {σ}
    (createOrDeleteVolume :
       chubaofs.volumeRequestType -> string -> string -> string -> Z ->
       M σ (option error))
    : chubaofs.volumeRequestType -> string -> string -> string -> Z ->
      M (σ * list cluster_call) (option error) :=
  fun kind masterAddr volName owner capacityGB =>
    traced (fun _ => mk_cluster_call kind masterAddr volName owner capacityGB)
      (createOrDeleteVolume kind masterAddr volName owner capacityGB).

(** The URLs of the three administrative calls for the endpoint [addr], as
    the attempts of [createVolume], [deleteVolume] and [expandVolume]
    format them. *)
Definition createVol_url (cs : cubefs.cfsServer) (capacityGB : Z)
    (addr : string) : string :=
  "http://" +:+ addr +:+ "/admin/createVol?name=" +:+
  go_get (cubefs.clientConf cs) cubefs.KVolumeName +:+
  "&capacity=" +:+ fmt_int capacityGB +:+
  "&owner=" +:+ go_get (cubefs.clientConf cs) cubefs.KOwner +:+
  "&crossZone=" +:+ go_get (cubefs.clientConf cs) cubefs.KCrossZone +:+
  "&enableToken=" +:+ go_get (cubefs.clientConf cs) cubefs.KEnableToken +:+
  "&zoneName=" +:+ go_get (cubefs.clientConf cs) cubefs.KZoneName +:+
  "&volType=" +:+ go_get (cubefs.clientConf cs) cubefs.KVolType.

Definition deleteVol_url (md5_hex : string -> string)
    (cs : cubefs.cfsServer) (addr : string) : string :=
  "http://" +:+ addr +:+ "/vol/delete?name=" +:+
  go_get (cubefs.clientConf cs) cubefs.KVolumeName +:+
  "&authKey=" +:+ md5_hex (go_get (cubefs.clientConf cs) cubefs.KOwner).

Definition expandVol_url (md5_hex : string -> string)
    (cs : cubefs.cfsServer) (capacityGB : Z) (addr : string) : string :=
  "http://" +:+ addr +:+ "/vol/expand?name=" +:+
  go_get (cubefs.clientConf cs) cubefs.KVolumeName +:+
  "&authKey=" +:+ md5_hex (go_get (cubefs.clientConf cs) cubefs.KOwner) +:+
  "&capacity=" +:+ fmt_int capacityGB.

(** How the recorded round trip [x] and the error [r] of its attempt go
    together, [codes] being the result codes taken for success: a reply
    with one of these codes and nil; a reply with another code and a plain
    error; no decoded reply and an [Unavailable] status. *)
Definition attempt_outcome (codes : list Z)
    (x : string * cubefs.http_outcome) (r : option error) : Prop :=
  match x.2 with
  | cubefs.Replied resp =>
      ((cubefs.Code resp ∈ codes) /\ r = None)
      \/ ((cubefs.Code resp ∉ codes)
          /\ exists msg, r = Some (fmt_Errorf msg))
  | _ => exists msg, r = Some (status_Error Unavailable msg)
  end.

(** The two log lines [forEachMasterAddr] itself writes. *)
Definition try_failed_entry (stage addr : string) (e : error) : glog_entry :=
  mk_glog_entry WARNING "try %s with master %q failed: %v"
    [arg_string stage; arg_string addr; arg_error e].

Definition all_failed_entry (stage : string) (e : error) : glog_entry :=
  mk_glog_entry ERROR "%s failed with all masters: %v"
    [arg_string stage; arg_error e].

Definition is_failover_entry (entry : glog_entry) : bool :=
  String.eqb (format entry) "try %s with master %q failed: %v"
  || String.eqb (format entry) "%s failed with all masters: %v".

(** The attempt function [f] writes no log line in the formats of
    [forEachMasterAddr]. *)
Definition quiet_about_failover {σ} (f : string -> M σ (option error))
    : Prop :=
  forall addr (u : World σ), exists l,
    glog (f addr u).2 = glog u ++ l
    /\ List.filter is_failover_entry l = [].

(** The warnings owed to the recorded attempts: one for each failure. *)
Definition failover_warnings (stage : string)
    (tr : list (string * option error)) : list glog_entry :=
  omap (fun p => try_failed_entry stage p.1 <$> p.2) tr.

(** The calls [persistClientConf] makes to the node, each with what it
    returned. *)
Inductive node_call : Type :=
| call_getFreePort (preferred port : Z) (err : option error)
| call_Mkdir (path : string) (perm : Z) (err : option error)
| call_WriteFile (path data : string) (perm : Z) (err : option error).

Definition is_WriteFile (c : node_call) : Prop :=
  match c with
  | call_WriteFile _ _ _ _ => True
  | _ => False
  end.

(** An operation of the outside world, with the call and its result
    recorded. *)
Definition logged {σ A T} (entry : A -> T) (op : σ -> A * σ)
    : σ * list T -> A * (σ * list T) :=
  fun s => let '(a, s') := op (fst s) in (a, (s', snd s ++ [entry a])).

(** [persistClientConf] on a node whose calls are recorded. *)
Definition persistClientConf_observed {σ}
    (getFreePort : Z -> σ -> (Z * option error) * σ)
    (os_Mkdir : string -> Z -> σ -> option error * σ)
    (ioutil_WriteFile : string -> string -> Z -> σ -> option error * σ)
    (json_Marshal : gmap string string -> string * option error)
    : cubefs.cfsServer -> string ->
      M (σ * list node_call) (cubefs.cfsServer * option error) :=
  cubefs.persistClientConf
    (fun preferred =>
       logged (fun r => call_getFreePort preferred r.1 r.2)
         (getFreePort preferred))
    (fun path perm => logged (call_Mkdir path perm) (os_Mkdir path perm))
    (fun path data perm =>
       logged (call_WriteFile path data perm)
         (ioutil_WriteFile path data perm))
    json_Marshal.

End observe.

(** ** Concrete servers, requests and clusters, used to exercise the
    statements below *)
Module samples.
Import csi.

(** A cluster whose first round trip fails on the network and whose later
    ones are answered with the result code [code]; the state counts the
    round trips. *)
Definition flaky_cluster (code : Z) : string -> nat -> cubefs.http_outcome * nat :=
  fun url n =>
    (match n with
     | O => cubefs.GetFailed "connection refused"
     | S _ => cubefs.Replied (cubefs.mk_cfsServerResponse code "reply" "")
     end, S n).

Definition two_masters : cubefs.cfsServer :=
  cubefs.mk_cfsServer "/cfs/conf/pvc-1.json"
    ["10.0.0.1:17010"; "10.0.0.2:17010"]
    {[ cubefs.KVolumeName := "pvc-1"; cubefs.KOwner := "csi_1" ]}.

Definition no_masters : cubefs.cfsServer :=
  cubefs.mk_cfsServer "/cfs/conf/pvc-1.json" []
    {[ cubefs.KVolumeName := "pvc-1"; cubefs.KOwner := "csi_1" ]}.

Definition three_masters : cubefs.cfsServer :=
  cubefs.mk_cfsServer "/cfs/conf/pvc-1.json"
    ["10.0.0.1:17010"; "10.0.0.2:17010"; "10.0.0.3:17010"]
    {[ cubefs.KVolumeName := "pvc-1"; cubefs.KOwner := "csi_1" ]}.

(** An attempt that succeeds on the second master only. *)
Definition picky_attempt : string -> M unit (option error) :=
  fun addr =>
    if String.eqb addr "10.0.0.2:17010" then ret None
    else ret (Some (fmt_Errorf ("unreachable: " +:+ addr))).

(** An attempt that fails everywhere. *)
Definition hopeless_attempt : string -> M unit (option error) :=
  fun addr => ret (Some (fmt_Errorf ("unreachable: " +:+ addr))).

Definition bare_params : gmap string string :=
  <[cubefs.KCrossZone := ""]>
    (<[cubefs.KLogDir := "/var/log/mine"]>
       {[ cubefs.KMasterAddr := "10.0.0.1:17010,10.0.0.2:17010" ]}).

Definition fresh_world {σ T} (s : σ) : World (σ * list T) :=
  mk_World (s, []) [].

(** The controller as the driver builds it. *)
Definition controller : chubaofs.controllerServer :=
  (chubaofs.NewControllerServer "10.0.0.1:17010" (mk_World tt [])).1.

Definition mount_capability (fsType : string) : option VolumeCapability :=
  Some {| AccessType :=
            Some (VolumeCapability_Mount
                    {| FsType := fsType; MountFlags := [] |});
          AccessMode :=
            Some {| Mode := VolumeCapability_AccessMode_MULTI_NODE_MULTI_WRITER |} |}.

Definition block_capability : option VolumeCapability :=
  Some {| AccessType := Some VolumeCapability_Block;
          AccessMode :=
            Some {| Mode := VolumeCapability_AccessMode_SINGLE_NODE_WRITER |} |}.

Definition create_request (fsType : string) (requiredBytes : Z)
    : CreateVolumeRequest :=
  {| Name := "pvc-1";
     CapacityRange_ :=
       Some {| RequiredBytes := requiredBytes; LimitBytes := 0 |};
     VolumeCapabilities := Some [mount_capability fsType];
     Parameters := {[ "zoneName" := "z1" ]} |}.

Definition mixed_capabilities_request : ValidateVolumeCapabilitiesRequest :=
  {| vreq_VolumeId := "pvc-1";
     vreq_VolumeContext := ∅;
     vreq_VolumeCapabilities :=
       Some [mount_capability "chubaofs"; block_capability];
     vreq_Parameters := ∅ |}.

Definition no_capabilities_request : ValidateVolumeCapabilitiesRequest :=
  {| vreq_VolumeId := "pvc-1";
     vreq_VolumeContext := {[ "zoneName" := "z1" ]};
     vreq_VolumeCapabilities := None;
     vreq_Parameters := {[ "owner" := "me" ]} |}.

(** A cluster that accepts every request. *)
Definition willing_cluster
    : chubaofs.volumeRequestType -> string -> string -> string -> Z ->
      M unit (option error) :=
  fun _ _ _ _ _ => ret None.



(** An attempt that succeeds on the third master only. *)
Definition late_attempt : string -> M unit (option error) :=
  fun addr =>
    if String.eqb addr "10.0.0.3:17010" then ret None
    else ret (Some (fmt_Errorf ("unreachable: " +:+ addr))).

(** A master address with an empty piece in the middle and one at the
    end. *)
Definition messy_params : gmap string string :=
  <[cubefs.KVolumeName := "named-in-map"]>
    {[ cubefs.KMasterAddr := "10.0.0.1:17010,,10.0.0.2:17010," ]}.

Definition normalized (param : gmap string string) : cubefs.cfsServer :=
  match cubefs.newCfsServer (fun s _ => s) 42 "vol1" param with
  | Ok cs => cs
  | Err _ => no_masters
  end.

(** A node whose ports are taken up to the one after the preferred, where
    the log directory exists already, and where files can be written, or
    not. *)
Definition node_getFreePort : Z -> unit -> (Z * option error) * unit :=
  fun preferred s => ((preferred + 1, None), s).

Definition node_Mkdir : string -> Z -> unit -> option error * unit :=
  fun path perm s => (Some (fmt_Errorf ("mkdir " +:+ path +:+ ": file exists")), s).

Definition node_WriteFile (writable : bool)
    : string -> string -> Z -> unit -> option error * unit :=
  fun path data perm s =>
    (if writable then None
     else Some (fmt_Errorf ("open " +:+ path +:+ ": read-only file system")),
     s).

(** A stand-in for [json.Marshal]: the owner and the ports, in order. *)
Definition node_Marshal : gmap string string -> string * option error :=
  fun m =>
    (go_get m cubefs.KOwner +:+ ":" +:+ go_get m cubefs.KExporterPort +:+
     ":" +:+ go_get m cubefs.KProfPort, None).

(** A cluster that refuses every request. *)
Definition unwilling_cluster
    : chubaofs.volumeRequestType -> string -> string -> string -> Z ->
      M unit (option error) :=
  fun _ _ _ _ _ => ret (Some (fmt_Errorf "no space left")).

Definition orphan_controller : chubaofs.controllerServer :=
  (chubaofs.NewControllerServer "" (mk_World tt [])).1.

Definition delete_request : DeleteVolumeRequest :=
  {| dreq_VolumeId := "pvc-1"; dreq_Secrets := ∅ |}.

(** Two capabilities with a mount: ext4 first, chubaofs last. *)
Definition two_mounts_request : CreateVolumeRequest :=
  {| Name := "pvc-2";
     CapacityRange_ := None;
     VolumeCapabilities :=
       Some [mount_capability "ext4"; mount_capability "chubaofs";
             block_capability];
     Parameters := ∅ |}.

End samples.

(** * Properties of the control-plane client *)
Module cubefs_spec.
Import cubefs observe.

Section failover.

Context {σ : Type}.
Implicit Types (f : string -> M σ (option error)) (stage : string).
Implicit Types (w : World (σ * list (string * option error))).
Implicit Types (tr : list (string * option error)).

(** One turn of the loop. *)
Lemma forEachMasterAddr_loop_cons {τ} stage (g : string -> M τ (option error))
    addr addrs err0 (w : World τ) :
  forEachMasterAddr_loop stage g (addr :: addrs) err0 w =
  match g addr w with
  | (None, w1) => (None, w1)
  | (Some e, w1) =>
      forEachMasterAddr_loop stage g addrs (Some e)
        (glog_write WARNING "try %s with master %q failed: %v"
           [arg_string stage; arg_string addr; arg_error e] w1).2
  end.
Proof.
  cbn [forEachMasterAddr_loop]. unfold bind.
  destruct (g addr w) as [[e|] w1]; reflexivity.
Qed.

(** The loop, observed: the record grows by the attempts made, which are
    the endpoints of a prefix of the list, in order; either the last of
    them succeeded and all before failed, or all failed, the whole list was
    tried and the result is the last error (the initial [err] for the empty
    list). *)
Lemma forEachMasterAddr_loop_observed stage f addrs err0 w :
  exists tr,
    trace (forEachMasterAddr_loop stage (observed_attempt f) addrs err0 w).2
      = trace w ++ tr
    /\ tr.*1 = take (length tr) addrs
    /\ let r :=
         (forEachMasterAddr_loop stage (observed_attempt f) addrs err0 w).1 in
       (r = None /\
        exists tr0 addr, tr = tr0 ++ [(addr, None)]
                         /\ Forall (fun p => p.2 <> None) tr0)
       \/ (Forall (fun p => p.2 <> None) tr /\ tr.*1 = addrs
           /\ r = match last tr with Some (_, e) => e | None => err0 end).
Proof.
  revert err0 w. induction addrs as [|addr addrs IH]; intros err0 w.
  - exists []. simpl. rewrite app_nil_r. split_and!; auto.
  - rewrite forEachMasterAddr_loop_cons.
    assert (Hobs : observed_attempt f addr w =
                   let '(r, w1) := f addr (erase w) in
                   (r, mk_World (ext w1, trace w ++ [(addr, r)]) (glog w1)))
      by reflexivity.
    destruct (f addr (erase w)) as [[e|] w1] eqn:Hf; rewrite Hobs; clear Hobs.
    + match goal with
      | |- context [forEachMasterAddr_loop _ _ _ _ ?w2'] => set (w2 := w2')
      end.
      assert (Hw2 : trace w2 = trace w ++ [(addr, Some e)]) by reflexivity.
      destruct (IH (Some e) w2) as (tr & Htr & Hpre & Hcase).
      exists ((addr, Some e) :: tr). split_and!.
      * rewrite Htr, Hw2, <- app_assoc. reflexivity.
      * simpl. f_equal. exact Hpre.
      * cbv zeta in Hcase |- *.
        destruct Hcase as [[Hr (tr0 & a & -> & Hall)] | (Hall & Hfull & Hr)].
        -- left. split; [exact Hr|].
           exists ((addr, Some e) :: tr0), a. split; [reflexivity|].
           constructor; [discriminate | exact Hall].
        -- right. split_and!.
           ++ constructor; [discriminate | exact Hall].
           ++ simpl. f_equal. exact Hfull.
           ++ rewrite Hr. destruct tr as [|p tr]; [reflexivity|].
              rewrite last_cons_cons.
              destruct (last (p :: tr)) as [[? ?]|] eqn:Hl; [reflexivity|].
              apply last_None in Hl. discriminate.
    + exists [(addr, None)]. simpl. split_and!; auto.
      left. split; [reflexivity|]. exists [], addr. split; auto.
Qed.

(** [forEachMasterAddr] returns what its loop leaves in [err], and touches
    nothing but the log after the loop. *)
Lemma forEachMasterAddr_unfold {τ} (cs : cfsServer) stage
    (g : string -> M τ (option error)) (w : World τ) :
  let lp := forEachMasterAddr_loop stage g (masterAddrs cs) None w in
  (forEachMasterAddr cs stage g w).1 = lp.1
  /\ ext (forEachMasterAddr cs stage g w).2 = ext lp.2.
Proof.
  unfold forEachMasterAddr, bind. cbv zeta.
  destruct (forEachMasterAddr_loop stage g (masterAddrs cs) None w)
    as [[e|] w1]; split; reflexivity.
Qed.

(** Recording changes nothing: if the recording attempt function [g']
    does, record aside, what [g] does, so does the whole iteration. *)
Lemma forEachMasterAddr_erase {T} (cs : cfsServer) stage
    (g : string -> M σ (option error))
    (g' : string -> M (σ * list T) (option error))
    (u : World (σ * list T)) :
  (forall addr (u0 : World (σ * list T)),
      g addr (erase u0) = ((g' addr u0).1, erase (g' addr u0).2)) ->
  let run := forEachMasterAddr cs stage g' u in
  forEachMasterAddr cs stage g (erase u) = (run.1, erase run.2).
Proof.
  intros Hsim. cbv zeta.
  assert (Hloop : forall addrs err0 (u0 : World (σ * list T)),
    forEachMasterAddr_loop stage g addrs err0 (erase u0) =
    ((forEachMasterAddr_loop stage g' addrs err0 u0).1,
     erase (forEachMasterAddr_loop stage g' addrs err0 u0).2)).
  { induction addrs as [|addr addrs IH]; intros err0 u0; [reflexivity|].
    rewrite !forEachMasterAddr_loop_cons, Hsim.
    destruct (g' addr u0) as [[e|] w1]; [|reflexivity].
    cbn [fst snd]. rewrite <- IH. reflexivity. }
  unfold forEachMasterAddr, bind. rewrite Hloop.
  destruct (forEachMasterAddr_loop stage g' (masterAddrs cs) None u)
    as [[e|] w1]; reflexivity.
Qed.

Lemma observed_attempt_erase f addr w :
  f addr (erase w) =
  ((observed_attempt f addr w).1, erase (observed_attempt f addr w).2).
Proof.
  unfold observed_attempt, traced.
  destruct (f addr (erase w)) as [r w1]. by destruct w1.
Qed.

(** C4. [forEachMasterAddr] invokes the attempt function on the endpoints
    of the list in list order (the attempts made are the endpoints of a
    prefix of [masterAddrs], one attempt each); an attempt that returns no
    error is the last one made and the result is then success; if no
    attempt returns success, every endpoint has been tried and the result is
    exactly the error of the last endpoint of the list. *)
Theorem forEachMasterAddr_failover (cs : cfsServer) stage f w :
  let run := forEachMasterAddr cs stage (observed_attempt f) w in
  exists tr,
    trace run.2 = trace w ++ tr
    /\ tr.*1 = take (length tr) (masterAddrs cs)
    /\ (forall i addr,
          tr !! i = Some (addr, None) ->
          run.1 = None /\ length tr = S i)
    /\ ((forall addr, (addr, None) ∉ tr) ->
        tr.*1 = masterAddrs cs /\ run.1 = last_error tr).
Proof.
  cbv zeta.
  destruct (forEachMasterAddr_unfold cs stage (observed_attempt f) w)
    as [Hres Hext].
  destruct (forEachMasterAddr_loop_observed stage f (masterAddrs cs) None w)
    as (tr & Htr & Hpre & Hcase).
  exists tr. rewrite Hres. unfold trace at 1. rewrite Hext.
  split; [exact Htr|]. split; [exact Hpre|].
  cbv zeta in Hcase.
  destruct Hcase as [[Hr (tr0 & a & -> & Hall)] | (Hall & Hfull & Hr)].
  - split.
    + intros i addr Hi. split; [exact Hr|].
      rewrite length_app. simpl.
      destruct (decide (i < length tr0)%nat) as [Hlt|Hge].
      * rewrite lookup_app_l in Hi by exact Hlt.
        rewrite Forall_lookup in Hall. specialize (Hall _ _ Hi).
        simpl in Hall. congruence.
      * apply lookup_lt_Some in Hi. rewrite length_app in Hi.
        simpl in Hi. lia.
    + intros Hnone. exfalso. apply (Hnone a).
      apply elem_of_app. right. apply list_elem_of_singleton. reflexivity.
  - split.
    + intros i addr Hi. rewrite Forall_lookup in Hall.
      specialize (Hall _ _ Hi). simpl in Hall. congruence.
    + intros _. split; [exact Hfull | exact Hr].
Qed.

End failover.

(** C9. With an empty endpoint list [forEachMasterAddr] returns nil and
    leaves the world as it was, whatever the attempt function: it is not
    invoked. Hence [createVolume], [deleteVolume] and [expandVolume] of a
    server without endpoints report success without any call to the
    cluster. *)
Theorem forEachMasterAddr_no_endpoints {σ : Type}
    (http_roundtrip : string -> σ -> http_outcome * σ)
    (md5_hex : string -> string) (cs : cfsServer) :
  masterAddrs cs = [] ->
  (forall stage (f : string -> M σ (option error)) (w : World σ),
      forEachMasterAddr cs stage f w = (None, w))
  /\ (forall capacityGB (w : World σ),
        createVolume http_roundtrip cs capacityGB w = (None, w))
  /\ (forall w : World σ,
        deleteVolume http_roundtrip md5_hex cs w = (None, w))
  /\ (forall capacityGB (w : World σ),
        expandVolume http_roundtrip md5_hex cs capacityGB w = (None, w)).
Proof.
  intros Hnil.
  assert (H : forall stage (f : string -> M σ (option error)) (w : World σ),
             forEachMasterAddr cs stage f w = (None, w)).
  { intros stage f w. unfold forEachMasterAddr. rewrite Hnil. reflexivity. }
  split_and!; intros; unfold createVolume, deleteVolume, expandVolume, getOwnerMd5;
    apply H.
Qed.

(** *** Replies of the cluster, observed on the transport *)
Section replies.

Context {σ X : Type}.

(** [ok x] says that the recorded round trip [x] makes its attempt
    succeed. *)
Variable ok : X -> Prop.
Variable g : string -> M (σ * list X) (option error).

Hypothesis g_one_round_trip :
  forall addr w, exists x,
    trace (g addr w).2 = trace w ++ [x] /\ ((g addr w).1 = None <-> ok x).

Lemma forEachMasterAddr_loop_replies stage addrs err0 w :
  let run := forEachMasterAddr_loop stage g addrs err0 w in
  exists tr,
    trace run.2 = trace w ++ tr
    /\ (forall x, x ∈ tr -> ok x -> run.1 = None)
    /\ (run.1 = None <->
        match last tr with Some x => ok x | None => err0 = None end).
Proof.
  cbv zeta. revert err0 w.
  induction addrs as [|addr addrs IH]; intros err0 w.
  - exists []. simpl. rewrite app_nil_r. split_and!; [done| |done].
    intros x Hx. by apply elem_of_nil in Hx.
  - rewrite forEachMasterAddr_loop_cons.
    destruct (g_one_round_trip addr w) as (x & Hx & Hok).
    destruct (g addr w) as [[e|] w1]; simpl in Hx, Hok.
    + assert (Hnok : ~ ok x) by (intros Hk; apply Hok in Hk; discriminate).
      match goal with
      | |- context [forEachMasterAddr_loop _ _ _ _ ?w2'] => set (w2 := w2')
      end.
      assert (Hw2 : trace w2 = trace w ++ [x]) by exact Hx.
      destruct (IH (Some e) w2) as (tr & Htr & Hin & Hlast).
      exists (x :: tr). split_and!.
      * rewrite Htr, Hw2, <- app_assoc. reflexivity.
      * intros y Hy Hoky. apply elem_of_cons in Hy as [->|Hy]; [done|].
        by apply (Hin y).
      * destruct tr as [|y tr].
        2:{ rewrite last_cons_cons.
            destruct (last (y :: tr)) eqn:Hl; [exact Hlast|].
            apply last_None in Hl. discriminate. }
        simpl in Hlast |- *.
        split; intros Hk; [apply Hlast in Hk; discriminate | done].
    + exists [x]. simpl. split_and!; [exact Hx| |].
      * reflexivity.
      * split; [intros _; by apply Hok | reflexivity].
Qed.

Lemma forEachMasterAddr_replies (cs : cfsServer) stage w :
  let run := forEachMasterAddr cs stage g w in
  exists tr,
    trace run.2 = trace w ++ tr
    /\ (forall x, x ∈ tr -> ok x -> run.1 = None)
    /\ (forall x, last tr = Some x -> ~ ok x -> run.1 <> None).
Proof.
  cbv zeta.
  destruct (forEachMasterAddr_unfold cs stage g w) as [Hres Hext].
  destruct (forEachMasterAddr_loop_replies stage (masterAddrs cs) None w)
    as (tr & Htr & Hin & Hlast).
  exists tr. rewrite Hres. unfold trace at 1. rewrite Hext.
  split_and!; [exact Htr | exact Hin |].
  intros x Hx Hnok Hr. apply Hlast in Hr. rewrite Hx in Hr. done.
Qed.

End replies.

Lemma elem_of_pair (a b c : Z) : a ∈ [b; c] <-> a = b \/ a = c.
Proof.
  rewrite !elem_of_cons. split; [intros [?|[?|H]]|intros [?|?]]; auto.
  by apply elem_of_nil in H.
Qed.

Section idempotency.

Context {σ : Type}.
Variable http_roundtrip : string -> σ -> http_outcome * σ.
Implicit Types (w : World (σ * list (string * http_outcome))).

(** An attempt of [createVolume] makes one round trip, and returns nil
    exactly when the reply carries code 0 or the duplicate-volume code. *)
Lemma createVolume_attempt_round_trip cs valName capacityGB owner crossZone
    token zone volType addr w :
  let run :=
    createVolume_attempt (recorded http_roundtrip) cs valName capacityGB
      owner crossZone token zone volType addr w in
  exists x,
    trace run.2 = trace w ++ [x]
    /\ (run.1 = None <-> reply_code_in [0; ErrCodeDuplicateVol] x).
Proof.
  cbv zeta.
  unfold createVolume_attempt, executeRequest, bind, glog_write, on_ext,
    recorded, reply_code_in, trace, ret.
  cbn [ext fst snd].
  destruct (http_roundtrip _ _) as [[err|n err|msg err|resp] s'];
    cbn [ext fst snd]; try (eexists; split; [reflexivity|]; cbn [snd];
                            split; [discriminate | tauto]).
  destruct (Z.eqb_spec (Code resp) 0) as [H0|H0]; cbn [negb ext fst snd].
  - eexists; split; [reflexivity|]; cbn [snd].
    split; [intros _|reflexivity]. apply elem_of_pair. by left.
  - destruct (Z.eqb_spec (Code resp) ErrCodeDuplicateVol) as [H12|H12];
      cbn [ext fst snd]; (eexists; split; [reflexivity|]; cbn [snd]).
    + split; [intros _|reflexivity]. apply elem_of_pair. by right.
    + split; [discriminate|]. rewrite elem_of_pair. tauto.
Qed.


(** C2. In every call of [createVolume], if one of the round trips made
    during the call is answered with the duplicate-volume code (12), the
    call returns nil: the volume is taken to exist already. *)
Theorem createVolume_duplicate_is_success (cs : cfsServer) capacityGB w :
  let run := createVolume (recorded http_roundtrip) cs capacityGB w in
  exists tr,
    trace run.2 = trace w ++ tr
    /\ forall url resp,
         (url, Replied resp) ∈ tr ->
         Code resp = ErrCodeDuplicateVol ->
         run.1 = None.
Proof.
  cbv zeta. unfold createVolume.
  match goal with
  | |- context [forEachMasterAddr cs ?stage ?g w] =>
      destruct (forEachMasterAddr_replies
                  (reply_code_in [0; ErrCodeDuplicateVol]) g
                  (fun addr w0 =>
                     createVolume_attempt_round_trip _ _ _ _ _ _ _ _ addr w0)
                  cs stage w)
        as (tr & Htr & Hin & _)
  end.
  exists tr. split; [exact Htr|].
  intros url resp Hel Hc. apply (Hin _ Hel).
  unfold reply_code_in. simpl. apply elem_of_pair. by right.
Qed.


(** The recording transport does what the transport does. *)
Lemma createVolume_recorded_erase (cs : cfsServer) capacityGB w :
  let run := createVolume (recorded http_roundtrip) cs capacityGB w in
  createVolume http_roundtrip cs capacityGB (erase w) = (run.1, erase run.2).
Proof.
  cbv zeta. unfold createVolume. apply forEachMasterAddr_erase.
  intros addr w0.
  unfold createVolume_attempt, executeRequest, bind, glog_write, on_ext,
    recorded, erase, ret.
  cbn [ext glog fst snd].
  destruct (http_roundtrip _ _) as [[err|n err|msg err|resp] s'];
    try reflexivity.
  destruct (Code resp =? 0); cbn [negb]; [reflexivity|].
  destruct (Code resp =? ErrCodeDuplicateVol); reflexivity.
Qed.

Lemma deleteVolume_recorded_erase md5_hex (cs : cfsServer) w :
  let run := deleteVolume (recorded http_roundtrip) md5_hex cs w in
  deleteVolume http_roundtrip md5_hex cs (erase w) = (run.1, erase run.2).
Proof.
  cbv zeta. unfold deleteVolume, getOwnerMd5. apply forEachMasterAddr_erase.
  intros addr w0.
  unfold deleteVolume_attempt, executeRequest, bind, glog_write, on_ext,
    recorded, erase, ret.
  cbn [ext glog fst snd].
  destruct (http_roundtrip _ _) as [[err|n err|msg err|resp] s'];
    try reflexivity.
  destruct (Code resp =? 0); cbn [negb]; [reflexivity|].
  destruct (Code resp =? ErrCodeVolNotExists); reflexivity.
Qed.

End idempotency.

(** *** The parameter normalizer *)
Section normalizer_spec.

Variable ShortenString : string -> Z -> string.

Lemma length_zero_empty (s : string) :
  (String.length s =? 0)%nat = true <-> s = "".
Proof.
  destruct s; simpl; split; intros H; try done.
Qed.

Lemma absent_or_empty_go_get (m : gmap string string) k :
  absent_or_empty m k <-> go_get m k = "".
Proof.
  unfold absent_or_empty, go_get.
  destruct (m !! k) as [v|]; simpl; split; intros H; auto.
  - destruct H as [H|H]; [discriminate | congruence].
  - right. congruence.
Qed.

Lemma getValueWithDefault_spec (m : gmap string string) k d :
  (absent_or_empty m k -> getValueWithDefault m k d = d)
  /\ (~ absent_or_empty m k -> Some (getValueWithDefault m k d) = m !! k).
Proof.
  rewrite absent_or_empty_go_get. unfold getValueWithDefault.
  destruct (String.length (go_get m k) =? 0)%nat eqn:E.
  - apply length_zero_empty in E. split; [done|]. intros H. done.
  - assert (Hne : go_get m k <> "").
    { intros H. apply length_zero_empty in H. congruence. }
    split; [done|]. intros _. unfold go_get in *.
    destruct (m !! k); simpl in *; [reflexivity | done].
Qed.

Lemma getValueWithDefault_insert_ne (m : gmap string string) k k' v d :
  k <> k' ->
  getValueWithDefault (<[k := v]> m) k' d = getValueWithDefault m k' d.
Proof.
  intros Hne. unfold getValueWithDefault, go_get.
  by rewrite lookup_insert_ne.
Qed.

(** C7, as the code has it. For a non-empty volume name and a non-empty
    master address the normalizer succeeds, and in the resulting map:
    each of the keys volName, owner, logLevel, consulAddr and volType that
    the caller left absent or empty holds its computed default; logDir is
    the default log path followed by the final volume name, whatever the
    caller supplied; no other key that the caller gave a non-empty value is
    overwritten; and every key outside those six is as the caller left it
    (a key without a default that was absent stays absent). *)
Theorem newCfsServer_defaulting (now : Z) (volName : string)
    (param : gmap string string) :
  volName <> "" ->
  go_get param KMasterAddr <> "" ->
  exists cs,
    newCfsServer ShortenString now volName param = Ok cs
    /\ let out := clientConf cs in
       let newOwner := ShortenString ("csi_" +:+ fmt_int now) 20 in
       (forall k d,
           (k, d) ∈ [(KVolumeName, volName); (KOwner, newOwner);
                     (KLogLevel, defaultLogLevel);
                     (KConsulAddr, defaultConsulAddr);
                     (KVolType, defaultVolType)] ->
           absent_or_empty param k -> out !! k = Some d)
       /\ out !! KLogDir = Some (defaultLogDir +:+ go_get out KVolumeName)
       /\ (forall k,
             k <> KLogDir -> ~ absent_or_empty param k ->
             out !! k = param !! k)
       /\ (forall k,
             k ∉ [KVolumeName; KOwner; KLogLevel; KConsulAddr; KVolType;
                  KLogDir] ->
             out !! k = param !! k).
Proof.
  intros Hvol Hmaster. unfold newCfsServer.
  assert (E1 : (String.length volName =? 0)%nat = false).
  { destruct (String.length volName =? 0)%nat eqn:E; [|done].
    by apply length_zero_empty in E. }
  assert (E2 : (String.length (go_get param KMasterAddr) =? 0)%nat = false).
  { destruct (String.length (go_get param KMasterAddr) =? 0)%nat eqn:E;
      [|done]. by apply length_zero_empty in E. }
  rewrite E1, E2. cbn [orb]. eexists. split; [reflexivity|].
  cbn [clientConf]. cbv zeta.
  rewrite !getValueWithDefault_insert_ne by done.
  assert (Hm : param !! KMasterAddr = Some (go_get param KMasterAddr)).
  { unfold go_get in *. destruct (param !! KMasterAddr); [done|].
    simpl in Hmaster. done. }
  assert (Hlook : forall k,
    (<[KVolType := getValueWithDefault param KVolType defaultVolType]>
     (<[KConsulAddr :=
          getValueWithDefault param KConsulAddr defaultConsulAddr]>
      (<[KLogDir :=
           defaultLogDir +:+ getValueWithDefault param KVolumeName volName]>
       (<[KLogLevel := getValueWithDefault param KLogLevel defaultLogLevel]>
        (<[KOwner :=
             getValueWithDefault param KOwner
               (ShortenString ("csi_" +:+ fmt_int now) 20)]>
         (<[KVolumeName := getValueWithDefault param KVolumeName volName]>
          (<[KMasterAddr := go_get param KMasterAddr]> param))))))) !! k
    = if decide (k = KVolType) then
        Some (getValueWithDefault param KVolType defaultVolType)
      else if decide (k = KConsulAddr) then
        Some (getValueWithDefault param KConsulAddr defaultConsulAddr)
      else if decide (k = KLogDir) then
        Some (defaultLogDir +:+ getValueWithDefault param KVolumeName volName)
      else if decide (k = KLogLevel) then
        Some (getValueWithDefault param KLogLevel defaultLogLevel)
      else if decide (k = KOwner) then
        Some (getValueWithDefault param KOwner
                (ShortenString ("csi_" +:+ fmt_int now) 20))
      else if decide (k = KVolumeName) then
        Some (getValueWithDefault param KVolumeName volName)
      else param !! k).
  { intros k. rewrite !lookup_insert.
    repeat (case_decide; [subst; repeat case_decide; congruence|]).
    repeat case_decide; try congruence. }
  split_and!.
  - intros k d Hk Habs. rewrite Hlook.
    repeat (apply elem_of_cons in Hk as [Hk|Hk]);
      [..|by apply elem_of_nil in Hk];
      injection Hk as -> ->; decide_keys;
      f_equal; by apply getValueWithDefault_spec.
  - match goal with
    | |- context [go_get ?m KVolumeName] =>
        change (go_get m KVolumeName) with (default "" (m !! KVolumeName))
    end.
    rewrite !Hlook. decide_keys. reflexivity.
  - intros k Hk Hgiven. rewrite Hlook.
    destruct (decide (k = KVolType)) as [->|?];
      [by apply getValueWithDefault_spec|].
    destruct (decide (k = KConsulAddr)) as [->|?];
      [by apply getValueWithDefault_spec|].
    destruct (decide (k = KLogDir)) as [->|?]; [done|].
    destruct (decide (k = KLogLevel)) as [->|?];
      [by apply getValueWithDefault_spec|].
    destruct (decide (k = KOwner)) as [->|?];
      [by apply getValueWithDefault_spec|].
    destruct (decide (k = KVolumeName)) as [->|?];
      [by apply getValueWithDefault_spec|].
    reflexivity.
  - intros k Hk. rewrite Hlook.
    repeat (case_decide; [subst; exfalso; apply Hk; set_solver|]).
    reflexivity.
Qed.

End normalizer_spec.

(** *** The statements at concrete inputs *)
Import samples.

(** Three masters, the second of which answers: two attempts, in order,
    then success; the third master is not tried. *)
Lemma forEachMasterAddr_failover_witness :
  let run :=
    forEachMasterAddr three_masters "CreateVolume"
      (observed_attempt picky_attempt) (fresh_world tt) in
  run.1 = None
  /\ trace run.2 =
       [("10.0.0.1:17010", Some (fmt_Errorf "unreachable: 10.0.0.1:17010"));
        ("10.0.0.2:17010", None)].
Proof.
  cbv zeta.
  destruct (forEachMasterAddr_failover three_masters "CreateVolume"
              picky_attempt (fresh_world tt))
    as (tr & Htr & _ & Hsucc & _).
  split; [|reflexivity].
  apply (Hsucc 1%nat "10.0.0.2:17010").
  vm_compute in Htr. subst tr. reflexivity.
Defined.

(** All masters fail: the error returned is the one of the last master. *)
Lemma forEachMasterAddr_all_fail_example :
  (forEachMasterAddr three_masters "CreateVolume"
     (observed_attempt hopeless_attempt) (fresh_world tt)).1
  = Some (fmt_Errorf "unreachable: 10.0.0.3:17010").
Proof. reflexivity. Qed.

Lemma forEachMasterAddr_no_endpoints_witness :
  createVolume (flaky_cluster 0) no_masters 1 (mk_World 0%nat [])
  = (None, mk_World 0%nat []).
Proof.
  apply (forEachMasterAddr_no_endpoints (flaky_cluster 0) (fun s => s)
           no_masters).
  reflexivity.
Defined.

(** The first master is unreachable, the second answers with code 12. *)
Lemma createVolume_duplicate_is_success_witness :
  (createVolume (recorded (flaky_cluster 12)) two_masters 1
     (fresh_world 0%nat)).1 = None.
Proof.
  destruct (createVolume_duplicate_is_success (flaky_cluster 12) two_masters
              1 (fresh_world 0%nat)) as (tr & Htr & Hdup).
  vm_compute in Htr. subst tr.
  eapply Hdup;
    [ apply elem_of_cons; right; apply elem_of_cons; left; reflexivity
    | reflexivity ].
Defined.

(** A duplicate reply alone: the same call made twice succeeds twice. *)
Lemma createVolume_code_0_and_other_example :
  (createVolume (recorded (flaky_cluster 0)) two_masters 1
     (fresh_world 0%nat)).1 = None
  /\ (createVolume (recorded (flaky_cluster 5)) two_masters 1
        (fresh_world 0%nat)).1
     = Some (fmt_Errorf
         ("create volume failed: url(http://10.0.0.2:17010/admin/createVol?" +:+
          "name=pvc-1&capacity=1&owner=csi_1&crossZone=&enableToken=&" +:+
          "zoneName=&volType=) code=(5), msg: reply")).
Proof. split; reflexivity. Qed.


(** Code 12 means nothing to [deleteVolume]. *)
Lemma deleteVolume_other_code_example :
  (deleteVolume (recorded (flaky_cluster 12)) (fun s => s) two_masters
     (fresh_world 0%nat)).1
  = Some (fmt_Errorf "delete volume[pvc-1] is failed. code:12, msg:reply").
Proof. reflexivity. Qed.


Lemma newCfsServer_defaulting_witness :
  exists cs,
    newCfsServer (fun s _ => s) 42 "vol1" bare_params = Ok cs
    /\ clientConf cs !! KOwner = Some "csi_42"
    /\ clientConf cs !! KLogDir = Some "/cfs/logs/vol1"
    /\ clientConf cs !! KMasterAddr = bare_params !! KMasterAddr.
Proof.
  destruct (newCfsServer_defaulting (fun s _ => s) 42 "vol1" bare_params)
    as (cs & Hcs & Hdef & Hlog & Hkeep & _).
  - discriminate.
  - vm_compute. discriminate.
  - exists cs. split; [exact Hcs|]. split_and!.
    + apply Hdef; [|left; reflexivity].
      apply elem_of_cons. right. apply elem_of_cons. left. reflexivity.
    + rewrite Hlog. unfold go_get.
      rewrite (Hdef KVolumeName "vol1");
        [reflexivity | apply elem_of_cons; by left | left; reflexivity].
    + apply Hkeep; [discriminate|].
      intros [H|H]; vm_compute in H; discriminate.
Defined.

(** The claim read for every key fails: the normalizer has no default for
    zoneName or crossZone. With only a master address (and an empty
    crossZone) given, zoneName stays absent and crossZone stays empty in
    the resulting map. *)
Lemma newCfsServer_not_every_key_defaulted :
  absent_or_empty bare_params KZoneName
  /\ absent_or_empty bare_params KCrossZone
  /\ exists cs,
       newCfsServer (fun s _ => s) 42 "vol1" bare_params = Ok cs
       /\ clientConf cs !! KZoneName = None
       /\ clientConf cs !! KCrossZone = Some "".
Proof.
  split; [left; reflexivity|]. split; [right; reflexivity|].
  eexists. split; [reflexivity|]. split; reflexivity.
Qed.

(** The endpoint list a normalized server gets is never empty. *)
Lemma strings_Split1_nonempty (s : string) (sep : ascii) :
  strings_Split1 s sep <> [].
Proof.
  destruct s as [|c s]; simpl; [discriminate|].
  destruct (Ascii.eqb c sep); [discriminate|].
  destruct (strings_Split1 s sep); discriminate.
Qed.

End cubefs_spec.

(** * Properties of the controller *)
Module chubaofs_spec.
Import csi chubaofs k8s_util observe.

(** *** Rounding up to whole GiB *)

Lemma GIB_value : GIB = 1073741824.
Proof. reflexivity. Qed.

(** For a positive size, [RoundUpSize] is the ceiling of size / GIB. *)
Lemma RoundUpSize_GIB_ceiling (c : Z) :
  0 < c ->
  let k := RoundUpSize c GIB in
  c <= k * GIB /\ (k - 1) * GIB < c.
Proof.
  intros Hc. cbv zeta. unfold RoundUpSize.
  rewrite Z.quot_div_nonneg, Z.rem_mod_nonneg by (rewrite ?GIB_value; lia).
  rewrite GIB_value.
  destruct (Z.ltb_spec 0 (c mod 1073741824)); Z.div_mod_to_equations; lia.
Qed.

Lemma int_of_int64_small (n : Z) :
  - 2 ^ 63 <= n < 2 ^ 63 -> int_of_int64 n = n.
Proof.
  intros Hn. unfold int_of_int64. rewrite Z.mod_small; lia.
Qed.

(** What [RoundUpSizeInt] returns, when it returns, for a size of at least
    one GiB: the least number of GiB that holds the size. *)
Lemma RoundUpSizeInt_Ok (c k : Z) :
  GIB <= c ->
  RoundUpSizeInt c GIB = Ok k ->
  c <= k * GIB /\ (forall j, c <= j * GIB -> k <= j).
Proof.
  intros Hc. unfold RoundUpSizeInt.
  destruct (Z.eqb_spec (int_of_int64 (RoundUpSize c GIB)) (RoundUpSize c GIB))
    as [E|E]; [|discriminate].
  intros [= <-]. rewrite E.
  destruct (RoundUpSize_GIB_ceiling c) as [Hle Hlt];
    [rewrite GIB_value in Hc; lia|].
  split; [exact Hle|]. intros j Hj. rewrite GIB_value in *. nia.
Qed.

(** Within [int64] the conversion to [int] never overflows. *)
Lemma RoundUpSizeInt_int64 (c : Z) :
  GIB <= c < 2 ^ 63 ->
  RoundUpSizeInt c GIB = Ok (RoundUpSize c GIB).
Proof.
  intros Hc. unfold RoundUpSizeInt.
  destruct (RoundUpSize_GIB_ceiling c) as [Hle Hlt];
    [rewrite GIB_value in Hc; lia|].
  rewrite int_of_int64_small, Z.eqb_refl; [reflexivity|].
  rewrite GIB_value in *. lia.
Qed.

Lemma floor_at_MinVolumeSize (capacity : Z) :
  (if capacity <? MinVolumeSize then MinVolumeSize else capacity)
  = Z.max capacity MinVolumeSize.
Proof. destruct (Z.ltb_spec capacity MinVolumeSize); lia. Qed.

Lemma strings_Compare_eq (a b : string) : strings_Compare a b = 0 -> a = b.
Proof.
  unfold strings_Compare. intros H. apply String.compare_eq_iff.
  destruct (String.compare a b); [reflexivity | discriminate | discriminate].
Qed.

(** *** The mount options [CreateVolume] looks at *)

Lemma CreateVolume_mountOptions_snoc caps cap :
  CreateVolume_mountOptions (caps ++ [cap]) =
  match GetMount cap with
  | Some m => Some m
  | None => CreateVolume_mountOptions caps
  end.
Proof. unfold CreateVolume_mountOptions. by rewrite fold_left_app. Qed.

(** They are those of the last capability that carries a mount. *)
Lemma CreateVolume_mountOptions_last caps :
  CreateVolume_mountOptions caps = last (omap GetMount caps).
Proof.
  induction caps as [|cap caps IH] using rev_ind; [reflexivity|].
  rewrite CreateVolume_mountOptions_snoc, omap_app. simpl.
  destruct (GetMount cap) as [m|]; simpl.
  - by rewrite last_snoc.
  - by rewrite app_nil_r.
Qed.

Lemma CreateVolume_mountOptions_none caps :
  (forall cap, cap ∈ caps -> GetMount cap = None) ->
  CreateVolume_mountOptions caps = None.
Proof.
  induction caps as [|cap caps IH] using rev_ind; [reflexivity|].
  intros H. rewrite CreateVolume_mountOptions_snoc.
  rewrite (H cap) by (apply elem_of_app; right; by apply list_elem_of_singleton).
  apply IH. intros c Hc. apply H. apply elem_of_app. by left.
Qed.

(** *** CreateVolume *)
Section create_cases.

Context {τ : Type}.
Variable createOrDeleteVolume :
  volumeRequestType -> string -> string -> string -> Z -> M τ (option error).
Implicit Types (w : World τ).

Lemma validateControllerServiceRequest_error cs c e :
  validateControllerServiceRequest cs c = Some e ->
  is_status InvalidArgument e.
Proof.
  unfold validateControllerServiceRequest.
  destruct (bool_decide _); [discriminate|].
  induction (caps cs) as [|cap l IH]; simpl.
  - intros [= <-]. eexists. reflexivity.
  - destruct (bool_decide _); [discriminate | exact IH].
Qed.

(** A request that passes the checks and whose capacity rounds without
    overflow is handed to the cluster, once; the answer decides the
    result. *)
Lemma CreateVolume_accepted cs req w k :
  passes_checks cs req ->
  RoundUpSizeInt (Z.max (GetRequiredBytes (CapacityRange_ req)) MinVolumeSize)
    GIB = Ok k ->
  CreateVolume createOrDeleteVolume cs req w =
  let '(err, w') :=
    createOrDeleteVolume createVolumeRequest (masterAddress cs) (Name req)
      defaultOwner k w in
  (match err with
   | Some err => Err err
   | None =>
       Ok {| Volume_ :=
               {| VolumeId := Name req;
                  CapacityBytes :=
                    Z.max (GetRequiredBytes (CapacityRange_ req))
                      MinVolumeSize;
                  VolumeContext := Parameters req |} |}
   end, w').
Proof.
  intros (Hval & Hname & caps & m & Hcaps & Hmount & Hfs) Hround.
  unfold CreateVolume. rewrite Hval.
  destruct (String.length (Name req) =? 0)%nat eqn:E.
  { apply cubefs_spec.length_zero_empty in E. done. }
  rewrite Hcaps, Hmount. cbn [GetFsType]. rewrite Hfs.
  change (negb (strings_Compare "chubaofs" "chubaofs" =? 0)) with false.
  cbv iota. rewrite floor_at_MinVolumeSize, Hround. unfold bind.
  destruct (createOrDeleteVolume _ _ _ _ _ w) as [[e|] w']; reflexivity.
Qed.

(** Any other request is turned down with [InvalidArgument], the world left
    as it was. *)
Lemma CreateVolume_rejected_or_accepted cs req w :
  (exists msg,
      CreateVolume createOrDeleteVolume cs req w =
      (Err (status_Error InvalidArgument msg), w))
  \/ (passes_checks cs req
      /\ exists k,
           RoundUpSizeInt
             (Z.max (GetRequiredBytes (CapacityRange_ req)) MinVolumeSize)
             GIB = Ok k).
Proof.
  unfold CreateVolume, passes_checks.
  destruct (validateControllerServiceRequest cs _) as [e|] eqn:Hval.
  { left. apply validateControllerServiceRequest_error in Hval as [msg ->].
    by exists msg. }
  destruct (String.length (Name req) =? 0)%nat eqn:E.
  { left. by eexists. }
  destruct (VolumeCapabilities req) as [caps|]; [|left; by eexists].
  destruct (CreateVolume_mountOptions caps) as [m|] eqn:Hmount;
    [|left; by eexists].
  cbn [GetFsType].
  destruct (Z.eqb_spec (strings_Compare (FsType m) "chubaofs") 0) as [Hfs|Hfs];
    cbn [negb]; [|left; by eexists].
  apply strings_Compare_eq in Hfs.
  rewrite floor_at_MinVolumeSize.
  destruct (RoundUpSizeInt _ GIB) as [k|e] eqn:Hround; [|left; by eexists].
  right. split_and!; [reflexivity| |by exists caps, m|by exists k].
  intros Hn. rewrite Hn in E. discriminate.
Qed.

End create_cases.

Section create.

Context {σ : Type}.
Variable createOrDeleteVolume :
  volumeRequestType -> string -> string -> string -> Z -> M σ (option error).

(** Recording the calls changes neither the result nor the world. *)
Lemma CreateVolume_observed_erase (cs : controllerServer)
    (req : CreateVolumeRequest) (w : World (σ * list cluster_call)) :
  let run := CreateVolume (observed_cluster createOrDeleteVolume) cs req w in
  CreateVolume createOrDeleteVolume cs req (erase w) = (run.1, erase run.2).
Proof.
  cbv zeta. unfold CreateVolume.
  destruct (validateControllerServiceRequest cs _); [reflexivity|].
  destruct (String.length (Name req) =? 0)%nat; [reflexivity|].
  destruct (VolumeCapabilities req) as [caps|]; [|reflexivity].
  destruct (CreateVolume_mountOptions caps) as [m|]; [|reflexivity].
  destruct (negb _); [reflexivity|].
  destruct (RoundUpSizeInt _ GIB) as [k|e]; [|reflexivity].
  unfold bind, observed_cluster, traced.
  destruct (createOrDeleteVolume _ _ _ _ _ (erase w)) as [[e|] w'];
    destruct w'; reflexivity.
Qed.

(** C5. A request whose capability list is missing, or holds no capability
    with a mount specification, or whose mount filesystem type (that of the
    mount options the code selects) is not exactly "chubaofs", is
    answered with an [InvalidArgument] error and the world is left
    untouched: no call to the cluster has been made. *)
Theorem CreateVolume_rejects_before_cluster_call (cs : controllerServer)
    (req : CreateVolumeRequest) (w : World (σ * list cluster_call)) :
  VolumeCapabilities req = None
  \/ (exists caps,
        VolumeCapabilities req = Some caps
        /\ forall cap, cap ∈ caps -> GetMount cap = None)
  \/ (exists caps,
        VolumeCapabilities req = Some caps
        /\ GetFsType (CreateVolume_mountOptions caps) <> "chubaofs") ->
  exists msg,
    CreateVolume (observed_cluster createOrDeleteVolume) cs req w =
    (Err (status_Error InvalidArgument msg), w).
Proof.
  intros Hbad.
  destruct (CreateVolume_rejected_or_accepted
              (observed_cluster createOrDeleteVolume) cs req w)
    as [Hrej | [(_ & _ & caps & m & Hcaps & Hmount & Hfs) _]];
    [exact Hrej|].
  exfalso. destruct Hbad as [Hnil | [(caps' & Hc & Hnone) | (caps' & Hc & Hne)]].
  - congruence.
  - assert (caps' = caps) as -> by congruence.
    rewrite (CreateVolume_mountOptions_none _ Hnone) in Hmount. discriminate.
  - assert (caps' = caps) as -> by congruence.
    rewrite Hmount in Hne. simpl in Hne. done.
Qed.

(** C1. Whatever [CreateVolume] sends to the cluster is the required size,
    floored at one GiB and rounded up to whole GiB: the capacity sent is the
    least number [k] of GiB with [k * GIB] at least the floored size, and it
    is 1 when fewer than one GiB is required. Either the request is turned
    down and nothing is sent, or exactly one call with that capacity is
    made; a request that passes the checks, its size within [int64], is
    sent. *)
Theorem CreateVolume_capacity_sent (cs : controllerServer)
    (req : CreateVolumeRequest) (w : World (σ * list cluster_call)) :
  let run := CreateVolume (observed_cluster createOrDeleteVolume) cs req w in
  let required := GetRequiredBytes (CapacityRange_ req) in
  let floored := Z.max required MinVolumeSize in
  let sent (k : Z) :=
    trace run.2 =
    trace w ++ [mk_cluster_call createVolumeRequest (masterAddress cs)
                  (Name req) defaultOwner k]
    /\ floored <= k * GIB
    /\ (forall j, floored <= j * GIB -> k <= j)
    /\ (required < GIB -> k = 1) in
  ((trace run.2 = trace w /\ exists e, run.1 = Err e) \/ exists k, sent k)
  /\ (passes_checks cs req -> - 2 ^ 63 <= required < 2 ^ 63 ->
      exists k, sent k).
Proof.
  cbv zeta.
  assert (Hsent : forall k,
    passes_checks cs req ->
    RoundUpSizeInt (Z.max (GetRequiredBytes (CapacityRange_ req)) MinVolumeSize)
      GIB = Ok k ->
    trace (CreateVolume (observed_cluster createOrDeleteVolume) cs req w).2 =
    trace w ++ [mk_cluster_call createVolumeRequest (masterAddress cs)
                  (Name req) defaultOwner k]
    /\ Z.max (GetRequiredBytes (CapacityRange_ req)) MinVolumeSize <= k * GIB
    /\ (forall j,
          Z.max (GetRequiredBytes (CapacityRange_ req)) MinVolumeSize
          <= j * GIB -> k <= j)
    /\ (GetRequiredBytes (CapacityRange_ req) < GIB -> k = 1)).
  { intros k Hpass Hround.
    rewrite (CreateVolume_accepted _ cs req w k Hpass Hround).
    apply RoundUpSizeInt_Ok in Hround as [Hle Hmin];
      [|unfold MinVolumeSize; lia].
    split_and!; [|exact Hle|exact Hmin|].
    - unfold observed_cluster, traced.
      destruct (createOrDeleteVolume _ _ _ _ _ (erase w)) as [e w'].
      reflexivity.
    - intros Hsmall. unfold MinVolumeSize in *.
      specialize (Hmin 1). rewrite GIB_value in *. lia. }
  split.
  - destruct (CreateVolume_rejected_or_accepted
                (observed_cluster createOrDeleteVolume) cs req w)
      as [[msg Hrej] | [Hpass [k Hround]]].
    + left. rewrite Hrej. split; [reflexivity | by eexists].
    + right. exists k. by apply Hsent.
  - intros Hpass Hrange.
    eexists. apply Hsent; [exact Hpass|].
    apply RoundUpSizeInt_int64. unfold MinVolumeSize. rewrite GIB_value. lia.
Qed.

(** C6, as the code has it. The descriptor of a successful [CreateVolume]
    carries the volume name of the request as identity, the caller's
    parameter map unchanged as volume context, and as capacity the required
    bytes floored at one GiB, before any rounding up. *)
Theorem CreateVolume_descriptor (cs : controllerServer)
    (req : CreateVolumeRequest) (w : World (σ * list cluster_call))
    (resp : CreateVolumeResponse) :
  (CreateVolume (observed_cluster createOrDeleteVolume) cs req w).1 = Ok resp ->
  VolumeId (Volume_ resp) = Name req
  /\ CapacityBytes (Volume_ resp) =
     Z.max (GetRequiredBytes (CapacityRange_ req)) MinVolumeSize
  /\ VolumeContext (Volume_ resp) = Parameters req.
Proof.
  destruct (CreateVolume_rejected_or_accepted
              (observed_cluster createOrDeleteVolume) cs req w)
    as [[msg Hrej] | [Hpass [k Hround]]].
  - rewrite Hrej. discriminate.
  - rewrite (CreateVolume_accepted _ cs req w k Hpass Hround).
    destruct (observed_cluster _ _ _ _ _ _ w) as [[e|] w'];
      [discriminate|].
    intros [= <-]. split_and!; reflexivity.
Qed.

End create.

(** *** ValidateVolumeCapabilities *)

Lemma ValidateVolumeCapabilities_loop_spec
    (caps : list (option VolumeCapability)) :
  ((exists cap,
       cap ∈ caps
       /\ GetMode (GetAccessMode cap) <>
          VolumeCapability_AccessMode_MULTI_NODE_MULTI_WRITER) ->
   ValidateVolumeCapabilities_loop caps =
   Some (status_Error InvalidArgument "No multi node multi writer capability"))
  /\ ((forall cap,
         cap ∈ caps ->
         GetMode (GetAccessMode cap) =
         VolumeCapability_AccessMode_MULTI_NODE_MULTI_WRITER) ->
      ValidateVolumeCapabilities_loop caps = None).
Proof.
  induction caps as [|cap caps [IHbad IHgood]]; simpl.
  - split; [|reflexivity]. intros (cap & Hin & _). by apply elem_of_nil in Hin.
  - case_bool_decide as Hmode.
    + split; [reflexivity|]. intros Hall. exfalso. apply Hmode, Hall.
      apply elem_of_cons. by left.
    + assert (Hm : GetMode (GetAccessMode cap) =
                   VolumeCapability_AccessMode_MULTI_NODE_MULTI_WRITER).
      { destruct (decide (GetMode (GetAccessMode cap) =
                   VolumeCapability_AccessMode_MULTI_NODE_MULTI_WRITER));
          [assumption | contradiction]. }
      split.
      * intros (c & Hin & Hc). apply IHbad. exists c. split; [|exact Hc].
        apply elem_of_cons in Hin as [->|Hin]; [contradiction | exact Hin].
      * intros Hall. apply IHgood. intros c Hin. apply Hall.
        apply elem_of_cons. by right.
Qed.

(** C10. [ValidateVolumeCapabilities] answers [InvalidArgument] as soon as
    some capability of the request has an access mode other than
    MULTI_NODE_MULTI_WRITER (a capability without access mode counts as
    UNKNOWN); otherwise, the empty list included, it answers a confirmation
    that repeats the volume context, the capabilities and the parameters of
    the request. *)
Theorem ValidateVolumeCapabilities_spec (cs : controllerServer)
    (req : ValidateVolumeCapabilitiesRequest) :
  ((exists cap,
       cap ∈ range (vreq_VolumeCapabilities req)
       /\ GetMode (GetAccessMode cap) <>
          VolumeCapability_AccessMode_MULTI_NODE_MULTI_WRITER) ->
   ValidateVolumeCapabilities cs req =
   Err (status_Error InvalidArgument "No multi node multi writer capability"))
  /\ ((forall cap,
         cap ∈ range (vreq_VolumeCapabilities req) ->
         GetMode (GetAccessMode cap) =
         VolumeCapability_AccessMode_MULTI_NODE_MULTI_WRITER) ->
      ValidateVolumeCapabilities cs req =
      Ok {| Confirmed :=
              Some {| conf_VolumeContext := vreq_VolumeContext req;
                      conf_VolumeCapabilities := vreq_VolumeCapabilities req;
                      conf_Parameters := vreq_Parameters req |};
            Message := "" |}).
Proof.
  unfold ValidateVolumeCapabilities.
  destruct (ValidateVolumeCapabilities_loop_spec
              (range (vreq_VolumeCapabilities req))) as [Hbad Hgood].
  split; intros H; [rewrite (Hbad H) | rewrite (Hgood H)]; reflexivity.
Qed.

(** *** The operations that are not implemented *)
Section unimplemented_spec.

Variables ControllerPublishVolumeRequest ControllerPublishVolumeResponse
  ControllerUnpublishVolumeRequest ControllerUnpublishVolumeResponse
  GetCapacityRequest GetCapacityResponse
  ListVolumesRequest ListVolumesResponse
  CreateSnapshotRequest CreateSnapshotResponse
  DeleteSnapshotRequest DeleteSnapshotResponse
  ListSnapshotsRequest ListSnapshotsResponse : Type.

(** C8. Whatever the server and the request, each of
    ControllerPublishVolume, ControllerUnpublishVolume, GetCapacity,
    ListVolumes, CreateSnapshot, DeleteSnapshot and ListSnapshots returns
    the error of status [Unimplemented], and no response. *)
Theorem unimplemented_operations (cs : controllerServer)
    (publish : ControllerPublishVolumeRequest)
    (unpublish : ControllerUnpublishVolumeRequest)
    (capacity : GetCapacityRequest) (volumes : ListVolumesRequest)
    (snapshot : CreateSnapshotRequest) (unsnapshot : DeleteSnapshotRequest)
    (snapshots : ListSnapshotsRequest) :
  ControllerPublishVolume _ ControllerPublishVolumeResponse cs publish
    = Err (status_Error Unimplemented "")
  /\ ControllerUnpublishVolume _ ControllerUnpublishVolumeResponse cs unpublish
    = Err (status_Error Unimplemented "")
  /\ GetCapacity _ GetCapacityResponse cs capacity
    = Err (status_Error Unimplemented "")
  /\ ListVolumes _ ListVolumesResponse cs volumes
    = Err (status_Error Unimplemented "")
  /\ CreateSnapshot _ CreateSnapshotResponse cs snapshot
    = Err (status_Error Unimplemented "")
  /\ DeleteSnapshot _ DeleteSnapshotResponse cs unsnapshot
    = Err (status_Error Unimplemented "")
  /\ ListSnapshots _ ListSnapshotsResponse cs snapshots
    = Err (status_Error Unimplemented "").
Proof. repeat split. Qed.

End unimplemented_spec.

(** *** The statements at concrete inputs *)
Import samples.

(** The controller the driver builds supports volume creation. *)
Lemma controller_supports_create :
  validateControllerServiceRequest controller
    ControllerServiceCapability_RPC_CREATE_DELETE_VOLUME = None.
Proof. reflexivity. Qed.

Lemma create_request_passes_checks (requiredBytes : Z) :
  passes_checks controller (create_request "chubaofs" requiredBytes).
Proof.
  split_and!; [reflexivity | discriminate |].
  eexists _, _. split_and!; reflexivity.
Qed.

(** Five bytes required: one GiB unit is sent. *)
Lemma CreateVolume_capacity_sent_witness :
  map call_capacityGB
    (trace (CreateVolume (observed_cluster willing_cluster) controller
              (create_request "chubaofs" 5) (fresh_world tt)).2) = [1].
Proof.
  destruct (CreateVolume_capacity_sent willing_cluster controller
              (create_request "chubaofs" 5) (fresh_world tt))
    as [_ Hsent].
  destruct Hsent as (k & Htr & _ & _ & Hone).
  - apply create_request_passes_checks.
  - simpl. lia.
  - rewrite Htr. simpl. f_equal. apply Hone. reflexivity.
Defined.

(** One and a half GiB required: two units are sent; 2^40 bytes: 1024. *)
Lemma CreateVolume_capacity_sent_examples :
  map call_capacityGB
    (trace (CreateVolume (observed_cluster willing_cluster) controller
              (create_request "chubaofs" 1610612736) (fresh_world tt)).2) = [2]
  /\ map call_capacityGB
       (trace (CreateVolume (observed_cluster willing_cluster) controller
                 (create_request "chubaofs" (2 ^ 40)) (fresh_world tt)).2)
     = [1024]
  /\ map call_capacityGB
       (trace (CreateVolume (observed_cluster willing_cluster) controller
                 (create_request "chubaofs" (-7)) (fresh_world tt)).2)
     = [1].
Proof. split_and!; reflexivity. Qed.

(** The filesystem type is compared byte for byte. *)
Lemma CreateVolume_rejects_before_cluster_call_witness :
  exists msg,
    CreateVolume (observed_cluster willing_cluster) controller
      (create_request "ChubaoFS" GIB) (fresh_world tt)
    = (Err (status_Error InvalidArgument msg), fresh_world tt).
Proof.
  apply CreateVolume_rejects_before_cluster_call.
  right. right. eexists. split; [reflexivity|].
  simpl. discriminate.
Defined.

Lemma CreateVolume_descriptor_witness :
  let resp :=
    {| Volume_ := {| VolumeId := "pvc-1"; CapacityBytes := GIB;
                     VolumeContext := {[ "zoneName" := "z1" ]} |} |} in
  VolumeId (Volume_ resp) = "pvc-1"
  /\ CapacityBytes (Volume_ resp) = Z.max 5 MinVolumeSize
  /\ VolumeContext (Volume_ resp) = {[ "zoneName" := "z1" ]}.
Proof.
  cbv zeta.
  apply (CreateVolume_descriptor willing_cluster controller
           (create_request "chubaofs" 5) (fresh_world tt)).
  reflexivity.
Defined.

(** One and a half GiB required and granted: the cluster is asked for two
    GiB, and the descriptor carries the 1610612736 bytes required, which is
    neither the number sent, nor the size sent, nor a whole number of
    GiB. *)
Lemma CreateVolume_descriptor_not_rounded :
  let run :=
    CreateVolume (observed_cluster willing_cluster) controller
      (create_request "chubaofs" 1610612736) (fresh_world tt) in
  exists resp,
    run.1 = Ok resp
    /\ map call_capacityGB (trace run.2) = [2]
    /\ CapacityBytes (Volume_ resp) = 1610612736
    /\ CapacityBytes (Volume_ resp) <> 2
    /\ CapacityBytes (Volume_ resp) <> 2 * GIB
    /\ CapacityBytes (Volume_ resp) mod GIB <> 0.
Proof.
  cbv zeta. eexists. split; [reflexivity|].
  split_and!; [reflexivity | reflexivity | | |]; simpl; discriminate.
Qed.

Lemma ValidateVolumeCapabilities_spec_witness :
  ValidateVolumeCapabilities controller mixed_capabilities_request
  = Err (status_Error InvalidArgument "No multi node multi writer capability")
  /\ ValidateVolumeCapabilities controller no_capabilities_request
     = Ok {| Confirmed :=
               Some {| conf_VolumeContext := {[ "zoneName" := "z1" ]};
                       conf_VolumeCapabilities := None;
                       conf_Parameters := {[ "owner" := "me" ]} |};
             Message := "" |}.
Proof.
  split.
  - refine (proj1 (ValidateVolumeCapabilities_spec controller
                     mixed_capabilities_request) _).
    exists block_capability. split; [|discriminate].
    apply elem_of_cons. right. apply elem_of_cons. by left.
  - refine (proj2 (ValidateVolumeCapabilities_spec controller
                     no_capabilities_request) _).
    intros cap Hin. by apply elem_of_nil in Hin.
Defined.

End chubaofs_spec.

(** * Further properties of the control-plane client *)
Module cubefs_more.
Import cubefs observe.

(** *** Round trips and endpoints, position by position *)
Section round_trips.

Context {σ O : Type}.

(** [key addr]: what is sent to the endpoint [addr]; [Q x r]: the recorded
    round trip [x] and the error [r] of its attempt go together. *)
Variable key : string -> string.
Variable Q : string * O -> option error -> Prop.
Variable g : string -> M (σ * list (string * O)) (option error).

Hypothesis g_one_round_trip :
  forall addr u, exists o,
    trace (g addr u).2 = trace u ++ [(key addr, o)]
    /\ Q (key addr, o) (g addr u).1.

Lemma forEachMasterAddr_loop_round_trips stage addrs err0 u :
  let run := forEachMasterAddr_loop stage g addrs err0 u in
  exists tr,
    trace run.2 = trace u ++ tr
    /\ tr.*1 = key <$> take (length tr) addrs
    /\ (forall i x,
          tr !! i = Some x -> (S i < length tr)%nat -> exists e, Q x (Some e))
    /\ match last tr with
       | Some x => Q x run.1
       | None => run.1 = err0 /\ addrs = []
       end
    /\ (run.1 <> None -> length tr = length addrs).
Proof.
  cbv zeta. revert err0 u.
  induction addrs as [|addr addrs IH]; intros err0 u.
  - exists []. simpl. rewrite app_nil_r. split_and!; try done.
  - rewrite cubefs_spec.forEachMasterAddr_loop_cons.
    destruct (g_one_round_trip addr u) as (o & Ho & HQ).
    destruct (g addr u) as [[e|] u1]; simpl in Ho, HQ.
    + match goal with
      | |- context [forEachMasterAddr_loop _ _ _ _ ?u2'] => set (u2 := u2')
      end.
      assert (Hu2 : trace u2 = trace u ++ [(key addr, o)]) by exact Ho.
      destruct (IH (Some e) u2) as (tr & Htr & Hkeys & Hearly & Hlast & Hall).
      exists ((key addr, o) :: tr). split_and!.
      * rewrite Htr, Hu2, <- app_assoc. reflexivity.
      * simpl. f_equal. exact Hkeys.
      * intros [|i] x Hi Hlt; simpl in Hi, Hlt.
        -- injection Hi as <-. by exists e.
        -- apply (Hearly i x Hi). lia.
      * destruct tr as [|y tr].
        -- simpl in Hlast |- *. destruct Hlast as [-> _]. exact HQ.
        -- rewrite last_cons_cons.
           destruct (last (y :: tr)) eqn:Hl; [exact Hlast|].
           apply last_None in Hl. discriminate.
      * intros Hr. simpl. f_equal. by apply Hall.
    + exists [(key addr, o)]. simpl. split_and!; try done.
      intros i x Hi Hlt. lia.
Qed.

Lemma forEachMasterAddr_round_trips (cs : cfsServer) stage u :
  let run := forEachMasterAddr cs stage g u in
  exists tr,
    trace run.2 = trace u ++ tr
    /\ tr.*1 = key <$> take (length tr) (masterAddrs cs)
    /\ (forall i x,
          tr !! i = Some x -> (S i < length tr)%nat -> exists e, Q x (Some e))
    /\ match last tr with
       | Some x => Q x run.1
       | None => run.1 = None /\ masterAddrs cs = []
       end
    /\ (run.1 <> None -> length tr = length (masterAddrs cs)).
Proof.
  cbv zeta.
  destruct (cubefs_spec.forEachMasterAddr_unfold cs stage g u) as [Hres Hext].
  destruct (forEachMasterAddr_loop_round_trips stage (masterAddrs cs) None u)
    as (tr & Htr & Hrest).
  exists tr. rewrite Hres. unfold trace at 1. rewrite Hext.
  split; [exact Htr | exact Hrest].
Qed.

End round_trips.

(** *** What the failover writes to the log *)
Section failover_log.

Context {σ : Type}.
Implicit Types (f : string -> M σ (option error)).
Implicit Types (w : World (σ * list (string * option error))).

Lemma forEachMasterAddr_loop_log stage f addrs err0 w :
  quiet_about_failover f ->
  let run := forEachMasterAddr_loop stage (observed_attempt f) addrs err0 w in
  exists tr l,
    trace run.2 = trace w ++ tr
    /\ glog run.2 = glog w ++ l
    /\ List.filter is_failover_entry l = failover_warnings stage tr.
Proof.
  intros Hquiet. cbv zeta. revert err0 w.
  induction addrs as [|addr addrs IH]; intros err0 w.
  - exists [], []. simpl. by rewrite !app_nil_r.
  - rewrite cubefs_spec.forEachMasterAddr_loop_cons.
    assert (Hobs : observed_attempt f addr w =
                   let '(r, w1) := f addr (erase w) in
                   (r, mk_World (ext w1, trace w ++ [(addr, r)]) (glog w1)))
      by reflexivity.
    destruct (Hquiet addr (erase w)) as (l1 & Hl1 & Hq1).
    destruct (f addr (erase w)) as [[e|] w1] eqn:Hf; rewrite Hobs; clear Hobs;
      cbn [snd erase glog] in Hl1.
    + match goal with
      | |- context [forEachMasterAddr_loop _ _ _ _ ?w2'] => set (w2 := w2')
      end.
      assert (Ht2 : trace w2 = trace w ++ [(addr, Some e)]) by reflexivity.
      assert (Hg2 : glog w2 = glog w ++ l1 ++ [try_failed_entry stage addr e]).
      { unfold w2, glog_write. cbn [snd glog]. rewrite Hl1.
        by rewrite <- app_assoc. }
      destruct (IH (Some e) w2) as (tr & l & Htr & Hl & Hq).
      exists ((addr, Some e) :: tr), (l1 ++ [try_failed_entry stage addr e] ++ l).
      split_and!.
      * rewrite Htr, Ht2, <- app_assoc. reflexivity.
      * rewrite Hl, Hg2, <- !app_assoc. reflexivity.
      * rewrite !List.filter_app, Hq1, Hq. reflexivity.
    + exists [(addr, None)], l1. cbn [fst snd glog trace ext].
      split_and!; [reflexivity | exact Hl1 | exact Hq1].
Qed.

(** X10. What [forEachMasterAddr] itself writes to the log, for an attempt
    function that does not use its two formats: one warning for each
    failed attempt, in the order of the attempts, naming the stage, the
    endpoint and the error; and after them one error line when the
    operation fails with all masters, none when it succeeds. *)
Theorem forEachMasterAddr_log (cs : cfsServer) stage f w :
  quiet_about_failover f ->
  let run := forEachMasterAddr cs stage (observed_attempt f) w in
  exists tr l,
    trace run.2 = trace w ++ tr
    /\ glog run.2 = glog w ++ l
    /\ List.filter is_failover_entry l =
       failover_warnings stage tr ++
       match run.1 with
       | Some e => [all_failed_entry stage e]
       | None => []
       end.
Proof.
  intros Hquiet. cbv zeta.
  destruct (forEachMasterAddr_loop_log stage f (masterAddrs cs) None w Hquiet)
    as (tr & l & Htr & Hl & Hq).
  unfold forEachMasterAddr, bind.
  destruct (forEachMasterAddr_loop stage (observed_attempt f)
              (masterAddrs cs) None w) as [[e|] w1];
    cbn [fst snd] in *.
  - exists tr, (l ++ [all_failed_entry stage e]). split_and!.
    + exact Htr.
    + unfold glog_write. cbn [snd glog]. rewrite Hl, <- app_assoc.
      reflexivity.
    + rewrite List.filter_app, Hq. reflexivity.
  - exists tr, l. rewrite app_nil_r. by split_and!.
Qed.

End failover_log.

(** *** What the three operations send, and what they return *)
Section operations.

Context {σ : Type}.
Variable http_roundtrip : string -> σ -> http_outcome * σ.
Implicit Types (u : World (σ * list (string * http_outcome))).

Lemma createVolume_attempt_outcome (cs : cfsServer) capacityGB addr u :
  let run := createVolume_attempt (recorded http_roundtrip) cs
      (go_get (clientConf cs) KVolumeName) capacityGB
      (go_get (clientConf cs) KOwner) (go_get (clientConf cs) KCrossZone)
      (go_get (clientConf cs) KEnableToken) (go_get (clientConf cs) KZoneName)
      (go_get (clientConf cs) KVolType) addr u in
  exists o,
    trace run.2 = trace u ++ [(createVol_url cs capacityGB addr, o)]
    /\ attempt_outcome [0; ErrCodeDuplicateVol] (createVol_url cs capacityGB addr, o) run.1.
Proof.
  cbv zeta.
  unfold createVolume_attempt, createVol_url, executeRequest, bind, glog_write, on_ext,
    recorded, trace, ret.
  cbn [ext fst snd].
  destruct (http_roundtrip _ _) as [[err|n err|msg err|resp] s'];
    cbn [ext fst snd];
    try (eexists; split; [reflexivity|]; unfold attempt_outcome; cbn [snd];
         by eexists).
  destruct (Z.eqb_spec (Code resp) 0) as [H0|H0]; cbn [negb ext fst snd].
  - eexists; split; [reflexivity|]. unfold attempt_outcome; cbn [snd].
    left. split; [|reflexivity]. apply cubefs_spec.elem_of_pair. by left.
  - destruct (Z.eqb_spec (Code resp) ErrCodeDuplicateVol) as [Hc|Hc];
      cbn [ext fst snd]; (eexists; split; [reflexivity|]);
      unfold attempt_outcome; cbn [snd].
    + left. split; [|reflexivity]. apply cubefs_spec.elem_of_pair. by right.
    + right. split; [|by eexists]. rewrite cubefs_spec.elem_of_pair. tauto.
Qed.

Lemma deleteVolume_attempt_outcome md5_hex (cs : cfsServer) addr u :
  let run := deleteVolume_attempt (recorded http_roundtrip) cs
      (go_get (clientConf cs) KVolumeName)
      (md5_hex (go_get (clientConf cs) KOwner)) addr u in
  exists o,
    trace run.2 = trace u ++ [(deleteVol_url md5_hex cs addr, o)]
    /\ attempt_outcome [0; ErrCodeVolNotExists] (deleteVol_url md5_hex cs addr, o) run.1.
Proof.
  cbv zeta.
  unfold deleteVolume_attempt, deleteVol_url, executeRequest, bind, glog_write, on_ext,
    recorded, trace, ret.
  cbn [ext fst snd].
  destruct (http_roundtrip _ _) as [[err|n err|msg err|resp] s'];
    cbn [ext fst snd];
    try (eexists; split; [reflexivity|]; unfold attempt_outcome; cbn [snd];
         by eexists).
  destruct (Z.eqb_spec (Code resp) 0) as [H0|H0]; cbn [negb ext fst snd].
  - eexists; split; [reflexivity|]. unfold attempt_outcome; cbn [snd].
    left. split; [|reflexivity]. apply cubefs_spec.elem_of_pair. by left.
  - destruct (Z.eqb_spec (Code resp) ErrCodeVolNotExists) as [Hc|Hc];
      cbn [ext fst snd]; (eexists; split; [reflexivity|]);
      unfold attempt_outcome; cbn [snd].
    + left. split; [|reflexivity]. apply cubefs_spec.elem_of_pair. by right.
    + right. split; [|by eexists]. rewrite cubefs_spec.elem_of_pair. tauto.
Qed.

Lemma expandVolume_attempt_outcome md5_hex (cs : cfsServer) capacityGB addr u :
  let run := expandVolume_attempt (recorded http_roundtrip) cs
      (go_get (clientConf cs) KVolumeName)
      (md5_hex (go_get (clientConf cs) KOwner)) capacityGB addr u in
  exists o,
    trace run.2 = trace u ++ [(expandVol_url md5_hex cs capacityGB addr, o)]
    /\ attempt_outcome [0] (expandVol_url md5_hex cs capacityGB addr, o) run.1.
Proof.
  cbv zeta.
  unfold expandVolume_attempt, expandVol_url, executeRequest, bind, glog_write, on_ext,
    recorded, trace, ret.
  cbn [ext fst snd].
  destruct (http_roundtrip _ _) as [[err|n err|msg err|resp] s'];
    cbn [ext fst snd];
    try (eexists; split; [reflexivity|]; unfold attempt_outcome; cbn [snd];
         by eexists).
  destruct (Z.eqb_spec (Code resp) 0) as [H0|H0]; cbn [negb ext fst snd];
    (eexists; split; [reflexivity|]); unfold attempt_outcome; cbn [snd].
  - left. split; [|reflexivity]. rewrite H0. apply list_elem_of_singleton.
    reflexivity.
  - right. split; [|by eexists]. rewrite list_elem_of_singleton. exact H0.
Qed.

Lemma failed_attempt_not_success codes (x : string * http_outcome) e :
  attempt_outcome codes x (Some e) -> ~ reply_code_in codes x.
Proof.
  unfold attempt_outcome, reply_code_in.
  destruct x.2 as [| | |resp]; try tauto.
  intros [[_ H]|[H _]]; [discriminate | exact H].
Qed.

(** The last round trip made and the result: a success and nil, or a
    failure, an error and the whole list tried. *)
Lemma last_round_trip_decides codes (key : string -> string)
    (addrs : list string) (tr : list (string * http_outcome))
    (r : option error) x :
  tr.*1 = key <$> take (length tr) addrs ->
  attempt_outcome codes x r ->
  (r <> None -> length tr = length addrs) ->
  (reply_code_in codes x /\ r = None)
  \/ (~ reply_code_in codes x /\ r <> None /\ tr.*1 = key <$> addrs).
Proof.
  intros Hkeys HQ Hall.
  assert (Hfull : r <> None -> tr.*1 = key <$> addrs).
  { intros Hr. rewrite Hkeys, (Hall Hr). by rewrite firstn_all. }
  unfold attempt_outcome, reply_code_in in *.
  destruct x.2 as [err|n err|msg err|resp].
  - destruct HQ as [msg' ->]. right. split_and!; [tauto|done|by apply Hfull].
  - destruct HQ as [msg' ->]. right. split_and!; [tauto|done|by apply Hfull].
  - destruct HQ as [msg' ->]. right. split_and!; [tauto|done|by apply Hfull].
  - destruct HQ as [[Hin ->]|[Hnin [msg' ->]]].
    + by left.
    + right. split_and!; [exact Hnin|done|by apply Hfull].
Qed.

(** X1. [createVolume] sends its requests to the endpoints in list order,
    one request per endpoint, each to the createVol URL of that endpoint
    carrying the server's volume name, owner, zone settings, volume type and
    the capacity, and it goes on until a request succeeds or the list is
    used up: every request but the last one made has failed (no reply, or a
    reply with a code other than 0 and 12); the last one made either is
    answered with code 0 or 12, and the call returns nil, or has failed, and
    then every endpoint has been sent its request and the call returns an
    error; no request at all is made only when there is no endpoint. *)
Theorem createVolume_requests (cs : cfsServer) capacityGB u :
  let run := createVolume (recorded http_roundtrip) cs capacityGB u in
  exists tr,
    trace run.2 = trace u ++ tr
    /\ tr.*1 = createVol_url cs capacityGB <$>
               take (length tr) (masterAddrs cs)
    /\ (forall i x,
          tr !! i = Some x -> (S i < length tr)%nat ->
          ~ reply_code_in [0; ErrCodeDuplicateVol] x)
    /\ (tr = [] -> masterAddrs cs = [])
    /\ (forall x,
          last tr = Some x ->
          (reply_code_in [0; ErrCodeDuplicateVol] x /\ run.1 = None)
          \/ (~ reply_code_in [0; ErrCodeDuplicateVol] x
              /\ run.1 <> None
              /\ tr.*1 = createVol_url cs capacityGB <$> masterAddrs cs)).
Proof.
  cbv zeta. unfold createVolume.
  match goal with
  | |- context [forEachMasterAddr cs ?stage ?g u] =>
      destruct (forEachMasterAddr_round_trips
                  (createVol_url cs capacityGB)
                  (attempt_outcome [0; ErrCodeDuplicateVol]) g
                  (fun addr u0 =>
                     createVolume_attempt_outcome cs capacityGB addr u0)
                  cs stage u)
        as (tr & Htr & Hkeys & Hearly & Hlast & Hall)
  end.
  exists tr. split_and!; [exact Htr | exact Hkeys | | |].
  - intros i x Hi Hlt. destruct (Hearly i x Hi Hlt) as [e He].
    by eapply failed_attempt_not_success.
  - intros ->. cbn [last] in Hlast. by destruct Hlast.
  - intros x Hx. rewrite Hx in Hlast.
    eapply last_round_trip_decides; [exact Hkeys | exact Hlast | exact Hall].
Qed.

(** X2. What [createVolume] returns is decided by the last round trip it
    made: nil for a reply with code 0 or 12, a plain error for a reply with
    another code, an [Unavailable] status when no reply was decoded; with no
    round trip at all (no endpoint) it returns nil. When it returns an
    error, every endpoint has been tried. *)
Theorem createVolume_result (cs : cfsServer) capacityGB u :
  let run := createVolume (recorded http_roundtrip) cs capacityGB u in
  exists tr,
    trace run.2 = trace u ++ tr
    /\ match last tr with
       | Some x => attempt_outcome [0; ErrCodeDuplicateVol] x run.1
       | None => run.1 = None /\ masterAddrs cs = []
       end
    /\ (run.1 <> None -> length tr = length (masterAddrs cs)).
Proof.
  cbv zeta. unfold createVolume.
  match goal with
  | |- context [forEachMasterAddr cs ?stage ?g u] =>
      destruct (forEachMasterAddr_round_trips
                  (createVol_url cs capacityGB)
                  (attempt_outcome [0; ErrCodeDuplicateVol]) g
                  (fun addr u0 =>
                     createVolume_attempt_outcome cs capacityGB addr u0)
                  cs stage u)
        as (tr & Htr & _ & _ & Hlast & Hall)
  end.
  exists tr. split_and!; [exact Htr | exact Hlast | exact Hall].
Qed.

(** X3. [deleteVolume] sends its requests to the endpoints in list order,
    one per endpoint, each to the delete URL of that endpoint with the
    server's volume name and, as authKey, the MD5 digest (in hex) of the
    server's owner, and it goes on until a request succeeds or the list is
    used up: every request but the last one made has failed; the last one
    made either is answered with code 0 or 7, and the call returns nil, or
    has failed, and then every endpoint has been sent its request and the
    call returns an error; no request at all is made only when there is no
    endpoint. *)
Theorem deleteVolume_requests (md5_hex : string -> string) (cs : cfsServer)
    u :
  let run := deleteVolume (recorded http_roundtrip) md5_hex cs u in
  exists tr,
    trace run.2 = trace u ++ tr
    /\ tr.*1 = deleteVol_url md5_hex cs <$> take (length tr) (masterAddrs cs)
    /\ (forall i x,
          tr !! i = Some x -> (S i < length tr)%nat ->
          ~ reply_code_in [0; ErrCodeVolNotExists] x)
    /\ (tr = [] -> masterAddrs cs = [])
    /\ (forall x,
          last tr = Some x ->
          (reply_code_in [0; ErrCodeVolNotExists] x /\ run.1 = None)
          \/ (~ reply_code_in [0; ErrCodeVolNotExists] x
              /\ run.1 <> None
              /\ tr.*1 = deleteVol_url md5_hex cs <$> masterAddrs cs)).
Proof.
  cbv zeta. unfold deleteVolume, getOwnerMd5.
  match goal with
  | |- context [forEachMasterAddr cs ?stage ?g u] =>
      destruct (forEachMasterAddr_round_trips
                  (deleteVol_url md5_hex cs)
                  (attempt_outcome [0; ErrCodeVolNotExists]) g
                  (fun addr u0 =>
                     deleteVolume_attempt_outcome md5_hex cs addr u0)
                  cs stage u)
        as (tr & Htr & Hkeys & Hearly & Hlast & Hall)
  end.
  exists tr. split_and!; [exact Htr | exact Hkeys | | |].
  - intros i x Hi Hlt. destruct (Hearly i x Hi Hlt) as [e He].
    by eapply failed_attempt_not_success.
  - intros ->. cbn [last] in Hlast. by destruct Hlast.
  - intros x Hx. rewrite Hx in Hlast.
    eapply last_round_trip_decides; [exact Hkeys | exact Hlast | exact Hall].
Qed.

(** X4. [expandVolume] takes no result code but 0 for success: it sends
    one expand request per endpoint, in list order, and what it returns is
    decided by the last round trip made, nil for a reply with code 0 and an
    error for anything else, the volume-not-found and duplicate-volume
    codes included; when it returns an error, every endpoint has been
    tried. *)
Theorem expandVolume_result (md5_hex : string -> string) (cs : cfsServer)
    capacityGB u :
  let run := expandVolume (recorded http_roundtrip) md5_hex cs capacityGB u in
  exists tr,
    trace run.2 = trace u ++ tr
    /\ tr.*1 = expandVol_url md5_hex cs capacityGB <$>
               take (length tr) (masterAddrs cs)
    /\ match last tr with
       | Some x => attempt_outcome [0] x run.1
       | None => run.1 = None /\ masterAddrs cs = []
       end
    /\ (forall url resp,
          last tr = Some (url, Replied resp) ->
          Code resp = ErrCodeVolNotExists \/ Code resp = ErrCodeDuplicateVol ->
          run.1 <> None)
    /\ (run.1 <> None -> length tr = length (masterAddrs cs)).
Proof.
  cbv zeta. unfold expandVolume, getOwnerMd5.
  match goal with
  | |- context [forEachMasterAddr cs ?stage ?g u] =>
      destruct (forEachMasterAddr_round_trips
                  (expandVol_url md5_hex cs capacityGB)
                  (attempt_outcome [0]) g
                  (fun addr u0 =>
                     expandVolume_attempt_outcome md5_hex cs capacityGB
                       addr u0)
                  cs stage u)
        as (tr & Htr & Hkeys & _ & Hlast & Hall)
  end.
  exists tr. split_and!; [exact Htr | exact Hkeys | exact Hlast | | exact Hall].
  intros url resp Hl Hcode. rewrite Hl in Hlast.
  unfold attempt_outcome in Hlast. simpl in Hlast.
  destruct Hlast as [[Hin _]|[_ [msg ->]]]; [|discriminate].
  apply list_elem_of_singleton in Hin. rewrite Hin in Hcode.
  destruct Hcode; discriminate.
Qed.

End operations.

(** *** Splitting the master address *)

Lemma concat_strings_Split1 (s : string) (sep : ascii) :
  String.concat (String sep "") (strings_Split1 s sep) = s.
Proof.
  induction s as [|c s IH]; [reflexivity|].
  simpl. pose proof (cubefs_spec.strings_Split1_nonempty s sep) as Hne.
  destruct (Ascii.eqb c sep) eqn:E.
  - apply Ascii.eqb_eq in E as ->.
    destruct (strings_Split1 s sep) as [|piece pieces]; [done|].
    change (String.concat (String sep "") ("" :: piece :: pieces))
      with (String sep (String.concat (String sep "") (piece :: pieces))).
    by rewrite IH.
  - destruct (strings_Split1 s sep) as [|piece pieces]; [done|].
    destruct pieces as [|piece' pieces].
    + simpl in *. by rewrite IH.
    + change (String.concat (String sep "")
                (String c piece :: piece' :: pieces))
        with (String c (String.concat (String sep "")
                          (piece :: piece' :: pieces))).
      by rewrite IH.
Qed.

Lemma strings_Split1_no_sep (s : string) (sep : ascii) :
  Forall (fun piece => ~ In sep (list_ascii_of_string piece))
    (strings_Split1 s sep).
Proof.
  induction s as [|c s IH]; simpl.
  - constructor; [|constructor]. simpl. tauto.
  - destruct (Ascii.eqb c sep) eqn:E.
    + constructor; [simpl; tauto | exact IH].
    + apply Ascii.eqb_neq in E.
      destruct (strings_Split1 s sep) as [|piece pieces].
      * constructor; [|constructor]. simpl. intros [H|H]; done.
      * inversion IH as [|? ? Hp Hps]; subst.
        constructor; [|exact Hps]. simpl. intros [H|H]; done.
Qed.

(** *** More on the parameter normalizer *)
Section normalizer_more.

Variable ShortenString : string -> Z -> string.

(** The value the normalizer leaves under each key. *)
Lemma newCfsServer_inv now volName (param : gmap string string) cs :
  newCfsServer ShortenString now volName param = Ok cs ->
  let name := getValueWithDefault param KVolumeName volName in
  volName <> "" /\ go_get param KMasterAddr <> ""
  /\ clientConfFile cs = defaultClientConfPath +:+ name +:+ jsonFileSuffix
  /\ masterAddrs cs = strings_Split1 (go_get param KMasterAddr) ","%char
  /\ forall k,
       clientConf cs !! k =
       if decide (k = KVolType) then
         Some (getValueWithDefault param KVolType defaultVolType)
       else if decide (k = KConsulAddr) then
         Some (getValueWithDefault param KConsulAddr defaultConsulAddr)
       else if decide (k = KLogDir) then Some (defaultLogDir +:+ name)
       else if decide (k = KLogLevel) then
         Some (getValueWithDefault param KLogLevel defaultLogLevel)
       else if decide (k = KOwner) then
         Some (getValueWithDefault param KOwner
                 (ShortenString ("csi_" +:+ fmt_int now) 20))
       else if decide (k = KVolumeName) then Some name
       else param !! k.
Proof.
  unfold newCfsServer. cbv zeta.
  destruct (String.length volName =? 0)%nat eqn:E1; [discriminate|].
  destruct (String.length (go_get param KMasterAddr) =? 0)%nat eqn:E2;
    [discriminate|].
  cbn [orb]. intros [= <-]. cbn [clientConfFile masterAddrs clientConf].
  assert (Hvol : volName <> "").
  { intros H. apply cubefs_spec.length_zero_empty in H. congruence. }
  assert (Hmaster : go_get param KMasterAddr <> "").
  { intros H. apply cubefs_spec.length_zero_empty in H. congruence. }
  split_and!; try done.
  intros k.
  rewrite !cubefs_spec.getValueWithDefault_insert_ne by done.
  assert (Hm : param !! KMasterAddr = Some (go_get param KMasterAddr)).
  { unfold go_get in *. destruct (param !! KMasterAddr); [done|].
    simpl in Hmaster. done. }
  rewrite !lookup_insert.
  repeat (case_decide; [subst; repeat case_decide; congruence|]).
  repeat case_decide; try congruence.
Qed.

Lemma getValueWithDefault_nonempty (m : gmap string string) k d :
  d <> "" -> getValueWithDefault m k d <> "".
Proof.
  intros Hd. unfold getValueWithDefault.
  destruct (String.length (go_get m k) =? 0)%nat eqn:E; [exact Hd|].
  intros H. apply cubefs_spec.length_zero_empty in H. congruence.
Qed.

Lemma getValueWithDefault_given (m : gmap string string) k d :
  go_get m k <> "" -> getValueWithDefault m k d = go_get m k.
Proof.
  intros Hk. unfold getValueWithDefault.
  destruct (String.length (go_get m k) =? 0)%nat eqn:E; [|reflexivity].
  apply cubefs_spec.length_zero_empty in E. done.
Qed.

Lemma newCfsServer_fails now volName (param : gmap string string) e :
  newCfsServer ShortenString now volName param = Err e ->
  volName = "" \/ go_get param KMasterAddr = "".
Proof.
  unfold newCfsServer.
  destruct (String.length volName =? 0)%nat eqn:E1;
    [apply cubefs_spec.length_zero_empty in E1; by left|].
  destruct (String.length (go_get param KMasterAddr) =? 0)%nat eqn:E2;
    [apply cubefs_spec.length_zero_empty in E2; by right|].
  discriminate.
Qed.

(** X5. [newCfsServer] fails exactly when the volume name is empty or the
    master address is absent or empty in the map, and then with the plain
    error "invalid argument for initializing cfsServer" (no gRPC status);
    in every other case it returns a server. *)
Theorem newCfsServer_error now volName (param : gmap string string) :
  (volName = "" \/ absent_or_empty param KMasterAddr ->
   newCfsServer ShortenString now volName param =
   Err (fmt_Errorf "invalid argument for initializing cfsServer"))
  /\ (forall e,
        newCfsServer ShortenString now volName param = Err e ->
        volName = "" \/ absent_or_empty param KMasterAddr).
Proof.
  rewrite cubefs_spec.absent_or_empty_go_get. unfold newCfsServer.
  destruct (String.length volName =? 0)%nat eqn:E1;
    destruct (String.length (go_get param KMasterAddr) =? 0)%nat eqn:E2;
    cbn [orb].
  - apply cubefs_spec.length_zero_empty in E1.
    split; [reflexivity | intros; by left].
  - apply cubefs_spec.length_zero_empty in E1.
    split; [reflexivity | intros; by left].
  - apply cubefs_spec.length_zero_empty in E2.
    split; [reflexivity | intros; right].
    by apply cubefs_spec.absent_or_empty_go_get.
  - split; [|discriminate].
    intros [H|H]; apply cubefs_spec.length_zero_empty in H; congruence.
Qed.

(** X6. The endpoints of a normalized server are the pieces of the master
    address between its commas: joined with commas they give the master
    address back, there is at least one, and none contains a comma. Empty
    pieces are kept (see [newCfsServer_endpoints_example]). *)
Theorem newCfsServer_endpoints now volName (param : gmap string string) cs :
  newCfsServer ShortenString now volName param = Ok cs ->
  String.concat "," (masterAddrs cs) = go_get param KMasterAddr
  /\ masterAddrs cs <> []
  /\ Forall (fun addr => ~ In ","%char (list_ascii_of_string addr))
       (masterAddrs cs).
Proof.
  intros H. apply newCfsServer_inv in H as (_ & _ & _ & -> & _).
  split_and!.
  - apply concat_strings_Split1.
  - apply cubefs_spec.strings_Split1_nonempty.
  - apply strings_Split1_no_sep.
Qed.

(** X7. The final volume name of a normalized server is the volName of the
    map when the caller gave one there, and the volume name argument
    otherwise; it is never empty, and both the client config path
    (/cfs/conf/<name>.json) and the log directory (/cfs/logs/<name>) are
    derived from it. *)
Theorem newCfsServer_final_name now volName (param : gmap string string) cs :
  newCfsServer ShortenString now volName param = Ok cs ->
  let name := go_get (clientConf cs) KVolumeName in
  name <> ""
  /\ (absent_or_empty param KVolumeName -> name = volName)
  /\ (~ absent_or_empty param KVolumeName -> name = go_get param KVolumeName)
  /\ clientConfFile cs = "/cfs/conf/" +:+ name +:+ ".json"
  /\ go_get (clientConf cs) KLogDir = "/cfs/logs/" +:+ name.
Proof.
  intros H. apply newCfsServer_inv in H as (Hvol & _ & Hfile & _ & Hlook).
  cbv zeta in *.
  assert (Hname : go_get (clientConf cs) KVolumeName =
                  getValueWithDefault param KVolumeName volName).
  { unfold go_get at 1. rewrite Hlook. by decide_keys. }
  assert (Hlog : go_get (clientConf cs) KLogDir =
                 defaultLogDir +:+
                 getValueWithDefault param KVolumeName volName).
  { unfold go_get at 1. rewrite Hlook. by decide_keys. }
  rewrite Hname, Hlog. split_and!.
  - by apply getValueWithDefault_nonempty.
  - intros Habs. by apply cubefs_spec.getValueWithDefault_spec.
  - intros Hgiven. apply getValueWithDefault_given.
    by rewrite <- cubefs_spec.absent_or_empty_go_get.
  - exact Hfile.
  - reflexivity.
Qed.

(** X8. After normalization the values of volName, masterAddr, logLevel,
    logDir, consulAddr and volType are never empty. *)
Theorem newCfsServer_values_nonempty now volName (param : gmap string string)
    cs k :
  newCfsServer ShortenString now volName param = Ok cs ->
  k ∈ [KVolumeName; KMasterAddr; KLogLevel; KLogDir; KConsulAddr; KVolType] ->
  go_get (clientConf cs) k <> "".
Proof.
  intros H Hk. apply newCfsServer_inv in H as (Hvol & Hmaster & _ & _ & Hlook).
  cbv zeta in *. unfold go_get at 1. rewrite Hlook.
  repeat (apply elem_of_cons in Hk as [->|Hk]);
    [..|by apply elem_of_nil in Hk]; decide_keys; cbn [default];
    try (by apply getValueWithDefault_nonempty).
  - exact Hmaster.
  - discriminate.
Qed.

(** X9. Normalizing is idempotent once an owner is set: a map that came out
    of [newCfsServer] with a non-empty owner comes out unchanged, with the
    same server, when it is normalized again, whatever the (non-empty)
    volume name and the clock reading of the second call. In particular the
    owner, once assigned, stays. *)
Theorem newCfsServer_idempotent now volName (param : gmap string string) cs
    now' volName' :
  newCfsServer ShortenString now volName param = Ok cs ->
  go_get (clientConf cs) KOwner <> "" ->
  volName' <> "" ->
  newCfsServer ShortenString now' volName' (clientConf cs) = Ok cs.
Proof.
  intros H Howner Hvol'.
  pose proof (newCfsServer_inv _ _ _ _ H)
    as (Hvol & Hmaster & Hfile & Haddrs & Hlook).
  cbv zeta in *.
  assert (Hget : forall k v, clientConf cs !! k = Some v ->
                             go_get (clientConf cs) k = v).
  { intros k v Hk. unfold go_get. by rewrite Hk. }
  assert (Hname : go_get (clientConf cs) KVolumeName =
                  getValueWithDefault param KVolumeName volName).
  { apply Hget. rewrite Hlook. by decide_keys. }
  assert (Hm : go_get (clientConf cs) KMasterAddr = go_get param KMasterAddr).
  { unfold go_get. rewrite Hlook. by decide_keys. }
  destruct (newCfsServer ShortenString now' volName' (clientConf cs))
    as [cs'|e] eqn:H'.
  2:{ apply newCfsServer_fails in H' as [?|H']; [done|]. congruence. }
  pose proof (newCfsServer_inv _ _ _ _ H')
    as (_ & _ & Hfile' & Haddrs' & Hlook').
  cbv zeta in *.
  assert (Hname' : getValueWithDefault (clientConf cs) KVolumeName volName'
                   = getValueWithDefault param KVolumeName volName).
  { rewrite getValueWithDefault_given; [exact Hname|].
    rewrite Hname. by apply getValueWithDefault_nonempty. }
  f_equal. destruct cs as [file addrs conf], cs' as [file' addrs' conf'].
  cbn [clientConfFile masterAddrs clientConf] in *.
  f_equal.
  - by rewrite Hfile', Hname', Hfile.
  - by rewrite Haddrs', Hm, Haddrs.
  - apply map_eq. intros k. rewrite Hlook', Hname'.
    assert (Hkeep : forall key d,
              d <> "" \/ go_get conf key <> "" ->
              conf !! key = Some (getValueWithDefault param key d) ->
              getValueWithDefault conf key d
              = getValueWithDefault param key d).
    { intros key d Hd Hkey. rewrite getValueWithDefault_given.
      - by apply Hget.
      - destruct Hd as [Hd|Hd]; [|exact Hd].
        rewrite (Hget _ _ Hkey). by apply getValueWithDefault_nonempty. }
    destruct (decide (k = KVolType)) as [->|?].
    { rewrite Hlook. decide_keys. f_equal. apply Hkeep; [by left|].
      rewrite Hlook. by decide_keys. }
    destruct (decide (k = KConsulAddr)) as [->|?].
    { rewrite Hlook. decide_keys. f_equal. apply Hkeep; [by left|].
      rewrite Hlook. by decide_keys. }
    destruct (decide (k = KLogDir)) as [->|?].
    { rewrite Hlook. by decide_keys. }
    destruct (decide (k = KLogLevel)) as [->|?].
    { rewrite Hlook. decide_keys. f_equal. apply Hkeep; [by left|].
      rewrite Hlook. by decide_keys. }
    destruct (decide (k = KOwner)) as [->|?].
    { rewrite Hlook. decide_keys. f_equal.
      rewrite getValueWithDefault_given by exact Howner.
      apply Hget. rewrite Hlook. by decide_keys. }
    destruct (decide (k = KVolumeName)) as [->|?].
    { rewrite Hlook. by decide_keys. }
    reflexivity.
Qed.

End normalizer_more.

(** *** A normalized server at work *)

(** X24. A server that came out of [newCfsServer] has at least one
    endpoint, so its [createVolume] cannot succeed unheard: when it returns
    nil, the last round trip made was answered by the cluster with code 0
    or with the duplicate-volume code. *)
Theorem createVolume_normalized_success {σ : Type}
    (http_roundtrip : string -> σ -> http_outcome * σ)
    (ShortenString : string -> Z -> string) now volName
    (param : gmap string string) (cs : cfsServer) capacityGB
    (u : World (σ * list (string * http_outcome))) :
  newCfsServer ShortenString now volName param = Ok cs ->
  let run := createVolume (recorded http_roundtrip) cs capacityGB u in
  run.1 = None ->
  exists tr url resp,
    trace run.2 = trace u ++ tr
    /\ last tr = Some (url, Replied resp)
    /\ (Code resp = 0 \/ Code resp = ErrCodeDuplicateVol).
Proof.
  intros Hcs. cbv zeta. intros Hnil.
  apply newCfsServer_inv in Hcs as (_ & _ & _ & Haddrs & _).
  revert Hnil. unfold createVolume.
  match goal with
  | |- context [forEachMasterAddr cs ?stage ?g u] =>
      destruct (forEachMasterAddr_round_trips
                  (createVol_url cs capacityGB)
                  (attempt_outcome [0; ErrCodeDuplicateVol]) g
                  (fun addr u0 =>
                     createVolume_attempt_outcome http_roundtrip cs
                       capacityGB addr u0)
                  cs stage u)
        as (tr & Htr & _ & _ & Hlast & _)
  end.
  intros Hnil. rewrite Hnil in Hlast.
  destruct (last tr) as [[url o]|] eqn:Hl.
  - unfold attempt_outcome in Hlast. cbn [snd] in Hlast.
    destruct o as [err|n err|msg err|resp];
      try (destruct Hlast as [msg' Hm]; discriminate).
    destruct Hlast as [[Hin _]|[_ [msg' Hm]]]; [|discriminate].
    exists tr, url, resp. split_and!; [exact Htr | exact Hl |].
    by apply cubefs_spec.elem_of_pair.
  - destruct Hlast as [_ Hempty]. rewrite Haddrs in Hempty.
    by apply cubefs_spec.strings_Split1_nonempty in Hempty.
Qed.

(** *** The client config materializer *)
Section materializer_spec.

Context {σ : Type}.
Variable getFreePort : Z -> σ -> (Z * option error) * σ.
Variable os_Mkdir : string -> Z -> σ -> option error * σ.
Variable ioutil_WriteFile : string -> string -> Z -> σ -> option error * σ.
Variable json_Marshal : gmap string string -> string * option error.
Implicit Types (w : World (σ * list node_call)).

(** The run of [persistClientConf], call by call. *)
Lemma persistClientConf_run (cs : cfsServer) mountPoint w :
  let run :=
    persistClientConf_observed getFreePort os_Mkdir ioutil_WriteFile
      json_Marshal cs mountPoint w in
  exists p1 e1 p2 e2 em ew,
    let conf :=
      <[KProfPort := fmt_int p2]>
        (<[KExporterPort := fmt_int p1]>
           (<[KMountPoint := mountPoint]> (clientConf cs))) in
    trace run.2 =
      trace w ++
      [call_getFreePort defaultExporterPort p1 e1;
       call_getFreePort defaultProfPort p2 e2;
       call_Mkdir (go_get conf KLogDir) 511 em;
       call_WriteFile (clientConfFile cs) (json_Marshal conf).1 292 ew]
    /\ run.1.1 = mk_cfsServer (clientConfFile cs) (masterAddrs cs) conf
    /\ run.1.2 =
       match ew with
       | Some err =>
           Some (status_Error Internal
                   ("create client config file fail. err: " +:+
                    error_Error err))
       | None => None
       end.
Proof.
  cbv zeta.
  unfold persistClientConf_observed, persistClientConf, bind, on_ext, logged,
    trace.
  cbn [ext fst snd].
  destruct (getFreePort defaultExporterPort _) as [[p1 e1] s1].
  cbn [ext fst snd].
  destruct (getFreePort defaultProfPort _) as [[p2 e2] s2].
  cbn [ext fst snd clientConf clientConfFile].
  destruct (os_Mkdir _ _ _) as [em s3]. cbn [ext fst snd].
  destruct (json_Marshal _) as [data ej] eqn:Hj. cbn [ext fst snd].
  destruct (ioutil_WriteFile _ _ _ _) as [ew s4] eqn:Hw. cbn [ext fst snd].
  exists p1, e1, p2, e2, em, ew. rewrite Hj. cbn [fst].
  destruct ew as [err|]; cbn [ret glog_write bind fst snd ext];
    rewrite <- !app_assoc; split_and!; reflexivity.
Qed.

(** X11. [persistClientConf] writes the config file exactly once, as the
    last thing it does on the node and whatever the port probes and the
    creation of the log directory returned; it fails exactly when that
    write fails, with an [Internal] status carrying the text of the write
    error. *)
Theorem persistClientConf_write_decides (cs : cfsServer) mountPoint w :
  let run :=
    persistClientConf_observed getFreePort os_Mkdir ioutil_WriteFile
      json_Marshal cs mountPoint w in
  exists calls data ew,
    trace run.2 =
      trace w ++ calls ++ [call_WriteFile (clientConfFile cs) data 292 ew]
    /\ Forall (fun c => ~ is_WriteFile c) calls
    /\ run.1.2 =
       match ew with
       | Some err =>
           Some (status_Error Internal
                   ("create client config file fail. err: " +:+
                    error_Error err))
       | None => None
       end.
Proof.
  cbv zeta.
  destruct (persistClientConf_run cs mountPoint w)
    as (p1 & e1 & p2 & e2 & em & ew & Htr & _ & Herr).
  cbv zeta in Htr.
  eexists [_; _; _], _, ew. split_and!; [exact Htr | | exact Herr].
  repeat constructor; simpl; tauto.
Qed.

(** X12. The configuration [persistClientConf] writes is the marshalling of
    the server's map as the call leaves it: the mount point under
    mountPoint, the two ports returned by the probes for 9513 and 10094 (in
    decimal, even when a probe reported an error) under exporterPort and
    profPort, and every other key as it was. *)
Theorem persistClientConf_config (cs : cfsServer) mountPoint w :
  let run :=
    persistClientConf_observed getFreePort os_Mkdir ioutil_WriteFile
      json_Marshal cs mountPoint w in
  let conf := clientConf run.1.1 in
  exists p1 e1 p2 e2 ew,
    call_getFreePort 9513 p1 e1 ∈ trace run.2
    /\ call_getFreePort 10094 p2 e2 ∈ trace run.2
    /\ call_WriteFile (clientConfFile cs) (json_Marshal conf).1 292 ew
       ∈ trace run.2
    /\ conf !! KMountPoint = Some mountPoint
    /\ conf !! KExporterPort = Some (fmt_int p1)
    /\ conf !! KProfPort = Some (fmt_int p2)
    /\ (forall k,
          k ∉ [KMountPoint; KExporterPort; KProfPort] ->
          conf !! k = clientConf cs !! k).
Proof.
  cbv zeta.
  destruct (persistClientConf_run cs mountPoint w)
    as (p1 & e1 & p2 & e2 & em & ew & Htr & Hcs & _).
  cbv zeta in Htr, Hcs. rewrite Htr, Hcs. cbn [clientConf].
  exists p1, e1, p2, e2, ew. split_and!.
  - apply elem_of_app. right. apply elem_of_cons. by left.
  - apply elem_of_app. right. do 1 (apply elem_of_cons; right).
    apply elem_of_cons. by left.
  - apply elem_of_app. right. do 3 (apply elem_of_cons; right).
    apply elem_of_cons. by left.
  - rewrite !lookup_insert. by decide_keys.
  - rewrite !lookup_insert. by decide_keys.
  - rewrite !lookup_insert. by decide_keys.
  - intros k Hk. rewrite !lookup_insert.
    repeat (case_decide; [subst; exfalso; apply Hk; set_solver|]).
    reflexivity.
Qed.

(** X13. For a server that came out of [newCfsServer], the log directory
    [persistClientConf] creates is /cfs/logs/<name> (mode 0777) and the file
    it writes is /cfs/conf/<name>.json (mode 0444), <name> being the final
    volume name; the directory is asked for before the file is written. *)
Theorem persistClientConf_after_newCfsServer (ShortenString : string -> Z -> string)
    now volName (param : gmap string string) (cs : cfsServer) mountPoint w :
  newCfsServer ShortenString now volName param = Ok cs ->
  let run :=
    persistClientConf_observed getFreePort os_Mkdir ioutil_WriteFile
      json_Marshal cs mountPoint w in
  let name := go_get (clientConf cs) KVolumeName in
  exists before em between data ew,
    trace run.2 =
      trace w ++ before ++
      [call_Mkdir ("/cfs/logs/" +:+ name) 511 em] ++ between ++
      [call_WriteFile ("/cfs/conf/" +:+ name +:+ ".json") data 292 ew].
Proof.
  intros Hcs. cbv zeta.
  destruct (persistClientConf_run cs mountPoint w)
    as (p1 & e1 & p2 & e2 & em & ew & Htr & _ & _).
  cbv zeta in Htr.
  apply newCfsServer_inv in Hcs as (_ & _ & Hfile & _ & Hlook).
  cbv zeta in Hfile, Hlook.
  assert (Hname : go_get (clientConf cs) KVolumeName =
                  getValueWithDefault param KVolumeName volName).
  { unfold go_get at 1. rewrite Hlook. by decide_keys. }
  eexists [_; _], em, [], _, ew. rewrite Htr. cbn [app]. rewrite Hname.
  repeat f_equal.
  - unfold go_get at 1. rewrite !lookup_insert. decide_keys.
    rewrite Hlook. by decide_keys.
  - exact Hfile.
Qed.

End materializer_spec.

(** *** The statements at concrete inputs *)
Import samples.

Lemma newCfsServer_error_witness :
  newCfsServer (fun s _ => s) 42 "" bare_params
  = Err (fmt_Errorf "invalid argument for initializing cfsServer")
  /\ newCfsServer (fun s _ => s) 42 "vol1" {[ KOwner := "me" ]}
     = Err (fmt_Errorf "invalid argument for initializing cfsServer").
Proof.
  split.
  - apply newCfsServer_error. left. reflexivity.
  - apply newCfsServer_error. right. left. reflexivity.
Defined.

(** Empty pieces of the master address are endpoints like the others. *)
Lemma newCfsServer_endpoints_example :
  masterAddrs (normalized messy_params)
  = ["10.0.0.1:17010"; ""; "10.0.0.2:17010"; ""].
Proof. reflexivity. Qed.

Lemma newCfsServer_endpoints_witness :
  String.concat "," (masterAddrs (normalized messy_params))
  = go_get messy_params KMasterAddr
  /\ masterAddrs (normalized messy_params) <> []
  /\ Forall (fun addr => ~ In ","%char (list_ascii_of_string addr))
       (masterAddrs (normalized messy_params)).
Proof.
  apply (newCfsServer_endpoints (fun s _ => s) 42 "vol1" messy_params).
  reflexivity.
Defined.

(** The name in the map wins over the name in the argument. *)
Lemma newCfsServer_final_name_witness :
  let name := go_get (clientConf (normalized messy_params)) KVolumeName in
  name <> ""
  /\ (absent_or_empty messy_params KVolumeName -> name = "vol1")
  /\ (~ absent_or_empty messy_params KVolumeName ->
      name = go_get messy_params KVolumeName)
  /\ clientConfFile (normalized messy_params) =
     "/cfs/conf/" +:+ name +:+ ".json"
  /\ go_get (clientConf (normalized messy_params)) KLogDir =
     "/cfs/logs/" +:+ name.
Proof.
  apply (newCfsServer_final_name (fun s _ => s) 42 "vol1" messy_params).
  reflexivity.
Defined.

Lemma newCfsServer_final_name_example :
  clientConfFile (normalized messy_params) = "/cfs/conf/named-in-map.json"
  /\ clientConfFile (normalized bare_params) = "/cfs/conf/vol1.json".
Proof. split; reflexivity. Qed.

Lemma newCfsServer_values_nonempty_witness :
  go_get (clientConf (normalized bare_params)) KVolType <> "".
Proof.
  apply (newCfsServer_values_nonempty (fun s _ => s) 42 "vol1" bare_params).
  - reflexivity.
  - do 5 (apply elem_of_cons; right). apply elem_of_cons. by left.
Defined.

(** Another name, another time: the same server, the same owner. *)
Lemma newCfsServer_idempotent_witness :
  newCfsServer (fun s _ => s) 77 "other" (clientConf (normalized bare_params))
  = Ok (normalized bare_params).
Proof.
  apply (newCfsServer_idempotent (fun s _ => s) 42 "vol1" bare_params).
  - reflexivity.
  - vm_compute. discriminate.
  - discriminate.
Defined.

Lemma late_attempt_quiet : quiet_about_failover late_attempt.
Proof.
  intros addr u. exists []. unfold late_attempt.
  destruct (String.eqb addr "10.0.0.3:17010"); simpl;
    rewrite app_nil_r; split; reflexivity.
Qed.

Lemma forEachMasterAddr_log_witness :
  let run :=
    forEachMasterAddr three_masters "CreateVolume"
      (observed_attempt late_attempt) (fresh_world tt) in
  exists tr l,
    trace run.2 = trace (fresh_world tt : World (unit * _)) ++ tr
    /\ glog run.2 = glog (fresh_world tt : World (unit * list (string * option error))) ++ l
    /\ List.filter is_failover_entry l =
       failover_warnings "CreateVolume" tr ++
       match run.1 with
       | Some e => [all_failed_entry "CreateVolume" e]
       | None => []
       end.
Proof.
  apply (forEachMasterAddr_log three_masters "CreateVolume" late_attempt).
  exact late_attempt_quiet.
Defined.

(** Two masters fail and the third answers: two warnings, no error line. *)
Lemma forEachMasterAddr_log_example :
  glog (forEachMasterAddr three_masters "CreateVolume"
          (observed_attempt late_attempt) (fresh_world tt)).2
  = [try_failed_entry "CreateVolume" "10.0.0.1:17010"
       (fmt_Errorf "unreachable: 10.0.0.1:17010");
     try_failed_entry "CreateVolume" "10.0.0.2:17010"
       (fmt_Errorf "unreachable: 10.0.0.2:17010")].
Proof. reflexivity. Qed.

Lemma createVolume_normalized_success_witness :
  exists tr url resp,
    trace (createVolume (recorded (flaky_cluster 12)) (normalized bare_params)
             3 (fresh_world 0%nat)).2
    = trace (fresh_world 0%nat : World (nat * list (string * http_outcome)))
      ++ tr
    /\ last tr = Some (url, Replied resp)
    /\ (Code resp = 0 \/ Code resp = ErrCodeDuplicateVol).
Proof.
  apply (createVolume_normalized_success (flaky_cluster 12) (fun s _ => s) 42
           "vol1" bare_params (normalized bare_params) 3 (fresh_world 0%nat)).
  - reflexivity.
  - reflexivity.
Defined.

Lemma persistClientConf_after_newCfsServer_witness :
  let run :=
    persistClientConf_observed node_getFreePort node_Mkdir
      (node_WriteFile false) node_Marshal (normalized bare_params) "/mnt/x"
      (fresh_world tt) in
  let name := go_get (clientConf (normalized bare_params)) KVolumeName in
  exists before em between data ew,
    trace run.2 =
      trace (fresh_world tt : World (unit * list node_call)) ++ before ++
      [call_Mkdir ("/cfs/logs/" +:+ name) 511 em] ++ between ++
      [call_WriteFile ("/cfs/conf/" +:+ name +:+ ".json") data 292 ew].
Proof.
  apply (persistClientConf_after_newCfsServer node_getFreePort node_Mkdir
           (node_WriteFile false) node_Marshal (fun s _ => s) 42 "vol1"
           bare_params).
  reflexivity.
Defined.

(** The log directory exists and the file system is read-only: the calls
    made, and the error returned. *)
Lemma persistClientConf_example :
  let run :=
    persistClientConf_observed node_getFreePort node_Mkdir
      (node_WriteFile false) node_Marshal (normalized bare_params) "/mnt/x"
      (fresh_world tt) in
  trace run.2 =
    [call_getFreePort 9513 9514 None;
     call_getFreePort 10094 10095 None;
     call_Mkdir "/cfs/logs/vol1" 511
       (Some (fmt_Errorf "mkdir /cfs/logs/vol1: file exists"));
     call_WriteFile "/cfs/conf/vol1.json" "csi_42:9514:10095" 292
       (Some (fmt_Errorf
                "open /cfs/conf/vol1.json: read-only file system"))]
  /\ run.1.2 =
     Some (status_Error Internal
             ("create client config file fail. err: " +:+
              "open /cfs/conf/vol1.json: read-only file system"))
  /\ go_get (clientConf run.1.1) KMountPoint = "/mnt/x".
Proof. split_and!; reflexivity. Qed.

End cubefs_more.

(** * Further properties of the controller *)
Module chubaofs_more.
Import csi chubaofs k8s_util observe.

(** *** Controller capabilities *)

Lemma validateControllerServiceRequest_loop_spec c caps :
  (validateControllerServiceRequest_loop c caps = None
   <-> exists cap, cap ∈ caps /\ GetType (GetRpc cap) = c)
  /\ (validateControllerServiceRequest_loop c caps = None
      \/ validateControllerServiceRequest_loop c caps =
         Some (status_Error InvalidArgument
                 ("unsupported capability " +:+ RPC_Type_String c))).
Proof.
  induction caps as [|cap caps [IH1 IH2]]; simpl.
  - split; [|by right]. split; [discriminate|].
    intros (cap & Hin & _). by apply elem_of_nil in Hin.
  - case_bool_decide as Hc.
    + split; [|by left]. split; [|done]. intros _. exists cap.
      split; [apply elem_of_cons; by left | done].
    + split; [|exact IH2]. rewrite IH1. split.
      * intros (c' & Hin & Hc'). exists c'. split; [|exact Hc'].
        apply elem_of_cons. by right.
      * intros (c' & Hin & Hc'). exists c'. split; [|exact Hc'].
        apply elem_of_cons in Hin as [->|Hin]; [congruence | exact Hin].
Qed.

(** X14. A controller accepts a request for an RPC capability exactly when
    the capability is UNKNOWN or is one of those it advertises through
    [ControllerGetCapabilities]; any other is refused with the
    [InvalidArgument] status "unsupported capability <name>". *)
Theorem validateControllerServiceRequest_advertised (cs : controllerServer)
    (c : ControllerServiceCapability_RPC_Type)
    (req : ControllerGetCapabilitiesRequest) :
  (validateControllerServiceRequest cs c = None
   <-> c = ControllerServiceCapability_RPC_UNKNOWN
       \/ exists resp cap,
            ControllerGetCapabilities cs req = Ok resp
            /\ cap ∈ Capabilities resp
            /\ GetType (GetRpc cap) = c)
  /\ (validateControllerServiceRequest cs c = None
      \/ validateControllerServiceRequest cs c =
         Some (status_Error InvalidArgument
                 ("unsupported capability " +:+ RPC_Type_String c))).
Proof.
  unfold validateControllerServiceRequest, ControllerGetCapabilities.
  destruct (validateControllerServiceRequest_loop_spec c (caps cs))
    as [Hiff Hor].
  case_bool_decide as Hc.
  - split; [|by left]. split; [by left | done].
  - split; [|exact Hor]. rewrite Hiff. split.
    + intros (cap & Hin & Hty). right. by exists {| Capabilities := caps cs |}, cap.
    + intros [?|(resp & cap & [= <-] & Hin & Hty)]; [done|]. by exists cap.
Qed.

Section capabilities.

Context {σ : Type}.
Implicit Types (w : World σ).

Lemma getControllerServiceCapabilities_loop_spec cl csc w :
  let run := getControllerServiceCapabilities_loop cl csc w in
  run.1 = csc ++ ((fun c => {| Rpc := Some {| RPC_Type := c |} |}) <$> cl)
  /\ ext run.2 = ext w
  /\ glog run.2 =
     glog w ++
     ((fun c =>
         mk_glog_entry INFO "Enabling controller service capability: %v"
           [arg_string (RPC_Type_String c)]) <$> cl).
Proof.
  cbv zeta. revert csc w. induction cl as [|c cl IH]; intros csc w.
  - simpl. by rewrite !app_nil_r.
  - cbn [getControllerServiceCapabilities_loop]. unfold bind, glog_write.
    destruct (IH (csc ++ [{| Rpc := Some {| RPC_Type := c |} |}])
                {| ext := ext w;
                   glog := glog w ++
                     [mk_glog_entry INFO
                        "Enabling controller service capability: %v"
                        [arg_string (RPC_Type_String c)]] |})
      as (H1 & H2 & H3).
    rewrite H1, H2, H3. cbn [ext glog fmap list_fmap].
    by rewrite <- !app_assoc.
Qed.

(** X15. [getControllerServiceCapabilities] returns one RPC capability for
    each requested type, in the order requested, so that reading the types
    back gives the list it was called with; it leaves the outside world
    alone and writes one log line for each capability. *)
Theorem getControllerServiceCapabilities_types
    (cl : list ControllerServiceCapability_RPC_Type) w :
  let run := getControllerServiceCapabilities cl w in
  (fun cap => GetType (GetRpc cap)) <$> run.1 = cl
  /\ ext run.2 = ext w
  /\ length (glog run.2) = (length (glog w) + length cl)%nat.
Proof.
  cbv zeta. unfold getControllerServiceCapabilities.
  destruct (getControllerServiceCapabilities_loop_spec cl [] w)
    as (H1 & H2 & H3).
  rewrite H1, H2, H3. split_and!.
  - simpl. clear.
    induction cl as [|c cl IH]; [reflexivity|].
    rewrite !fmap_cons. f_equal. exact IH.
  - reflexivity.
  - by rewrite length_app, length_fmap.
Qed.

(** X16. The controller [NewControllerServer] builds keeps the master
    address it is given and accepts exactly two RPC capabilities: UNKNOWN
    and CREATE_DELETE_VOLUME. *)
Theorem NewControllerServer_accepts (masterAddress' : string) w
    (c : ControllerServiceCapability_RPC_Type) :
  let cs := (NewControllerServer masterAddress' w).1 in
  masterAddress cs = masterAddress'
  /\ (validateControllerServiceRequest cs c = None
      <-> c = ControllerServiceCapability_RPC_UNKNOWN
          \/ c = ControllerServiceCapability_RPC_CREATE_DELETE_VOLUME).
Proof.
  cbv zeta. unfold NewControllerServer, bind, getControllerServiceCapabilities.
  destruct (getControllerServiceCapabilities_loop_spec
              [ControllerServiceCapability_RPC_CREATE_DELETE_VOLUME] [] w)
    as (H1 & _ & _).
  destruct (getControllerServiceCapabilities_loop _ _ w) as [caps' w'].
  cbn [fst] in *. subst caps'. cbn [ret fst masterAddress].
  split; [reflexivity|].
  unfold validateControllerServiceRequest. cbn.
  destruct c; cbn; split; intros H; try done; try (by left); try (by right);
    destruct H; discriminate.
Qed.

End capabilities.

(** *** DeleteVolume and more on CreateVolume *)
Section lifecycle.

Context {σ : Type}.
Variable createOrDeleteVolume :
  volumeRequestType -> string -> string -> string -> Z -> M σ (option error).
Variable DeleteVolumeRequest_String : DeleteVolumeRequest -> string.
Implicit Types (w : World (σ * list cluster_call)).

Lemma observed_cluster_run kind masterAddr volName owner capacityGB w :
  observed_cluster createOrDeleteVolume kind masterAddr volName owner
    capacityGB w =
  let '(err, w') :=
    createOrDeleteVolume kind masterAddr volName owner capacityGB (erase w) in
  (err,
   mk_World
     (ext w',
      trace w ++ [mk_cluster_call kind masterAddr volName owner capacityGB])
     (glog w')).
Proof. reflexivity. Qed.

(** X17. A controller without master address deletes nothing: [DeleteVolume]
    answers [InvalidArgument] and no call to the cluster is made. *)
Theorem DeleteVolume_no_master_address (cs : controllerServer)
    (req : DeleteVolumeRequest) w :
  masterAddress cs = "" ->
  let run :=
    DeleteVolume (observed_cluster createOrDeleteVolume)
      DeleteVolumeRequest_String cs req w in
  (exists msg, run.1 = Err (status_Error InvalidArgument msg))
  /\ trace run.2 = trace w.
Proof.
  intros Hm. cbv zeta. unfold DeleteVolume.
  destruct (validateControllerServiceRequest cs _) as [e|] eqn:Hval.
  - apply chubaofs_spec.validateControllerServiceRequest_error in Hval
      as [msg ->].
    split; [by exists msg | reflexivity].
  - rewrite Hm. cbn. split; [by eexists | reflexivity].
Qed.

(** X18. With the capability supported and a master address at hand,
    [DeleteVolume] makes exactly one call to the cluster, a delete request
    for the volume id of the request (which is not examined, be it empty)
    with the fixed owner and capacity 0, and its answer is the cluster's:
    the error as it is, or the empty response. *)
Theorem DeleteVolume_forwards (cs : controllerServer)
    (req : DeleteVolumeRequest) w :
  validateControllerServiceRequest cs
    ControllerServiceCapability_RPC_CREATE_DELETE_VOLUME = None ->
  masterAddress cs <> "" ->
  let run :=
    DeleteVolume (observed_cluster createOrDeleteVolume)
      DeleteVolumeRequest_String cs req w in
  trace run.2 =
    trace w ++ [mk_cluster_call deleteVolumeRequest (masterAddress cs)
                  (dreq_VolumeId req) defaultOwner 0]
  /\ run.1 =
     match (createOrDeleteVolume deleteVolumeRequest (masterAddress cs)
              (dreq_VolumeId req) defaultOwner 0 (erase w)).1 with
     | Some err => Err err
     | None => Ok mk_DeleteVolumeResponse
     end.
Proof.
  intros Hval Hm. cbv zeta. unfold DeleteVolume. rewrite Hval.
  destruct (String.eqb_spec (masterAddress cs) "") as [?|_]; [done|].
  unfold bind. rewrite observed_cluster_run.
  destruct (createOrDeleteVolume _ _ _ _ _ (erase w)) as [[e|] w'];
    split; reflexivity.
Qed.

(** X19. [CreateVolume] never reports success without the cluster: when it
    returns a descriptor, the request has passed the checks and exactly one
    create call has been made, which the cluster answered without error. *)
Theorem CreateVolume_success_needs_cluster (cs : controllerServer)
    (req : CreateVolumeRequest) w (resp : CreateVolumeResponse) :
  (CreateVolume (observed_cluster createOrDeleteVolume) cs req w).1 = Ok resp ->
  passes_checks cs req
  /\ exists k,
       trace (CreateVolume (observed_cluster createOrDeleteVolume) cs req w).2
       = trace w ++ [mk_cluster_call createVolumeRequest (masterAddress cs)
                       (Name req) defaultOwner k]
       /\ (createOrDeleteVolume createVolumeRequest (masterAddress cs)
             (Name req) defaultOwner k (erase w)).1 = None.
Proof.
  destruct (chubaofs_spec.CreateVolume_rejected_or_accepted
              (observed_cluster createOrDeleteVolume) cs req w)
    as [[msg Hrej] | [Hpass [k Hround]]].
  - rewrite Hrej. discriminate.
  - rewrite (chubaofs_spec.CreateVolume_accepted _ cs req w k Hpass Hround).
    rewrite observed_cluster_run.
    destruct (createOrDeleteVolume _ _ _ _ _ (erase w)) as [[e|] w'] eqn:Hcall;
      [discriminate|].
    intros _. split; [exact Hpass|]. exists k. rewrite Hcall.
    split; reflexivity.
Qed.

(** X20. For a request that passes the checks, its size within [int64], an
    error of the cluster is the error of [CreateVolume], unchanged, and no
    descriptor is returned. *)
Theorem CreateVolume_cluster_error (cs : controllerServer)
    (req : CreateVolumeRequest) w (e : error) :
  passes_checks cs req ->
  - 2 ^ 63 <= GetRequiredBytes (CapacityRange_ req) < 2 ^ 63 ->
  (createOrDeleteVolume createVolumeRequest (masterAddress cs) (Name req)
     defaultOwner
     (RoundUpSize
        (Z.max (GetRequiredBytes (CapacityRange_ req)) MinVolumeSize) GIB)
     (erase w)).1 = Some e ->
  (CreateVolume (observed_cluster createOrDeleteVolume) cs req w).1 = Err e.
Proof.
  intros Hpass Hrange Herr.
  assert (Hround :
    RoundUpSizeInt
      (Z.max (GetRequiredBytes (CapacityRange_ req)) MinVolumeSize) GIB
    = Ok (RoundUpSize
            (Z.max (GetRequiredBytes (CapacityRange_ req)) MinVolumeSize)
            GIB)).
  { apply chubaofs_spec.RoundUpSizeInt_int64. unfold MinVolumeSize.
    rewrite chubaofs_spec.GIB_value. lia. }
  rewrite (chubaofs_spec.CreateVolume_accepted _ cs req w _ Hpass Hround).
  rewrite observed_cluster_run.
  destruct (createOrDeleteVolume _ _ _ _ _ (erase w)) as [[e'|] w'];
    cbn [fst] in *; congruence.
Qed.

(** X21. The checks of [CreateVolume] are made in a fixed order and the
    first that fails gives the answer, the world being left as it was: an
    unsupported controller capability; then an empty name; then a missing
    capability list; then the lack of a capability with a mount; then a
    filesystem type other than "chubaofs". *)
Theorem CreateVolume_first_failing_check (cs : controllerServer)
    (req : CreateVolumeRequest) w :
  let run := CreateVolume (observed_cluster createOrDeleteVolume) cs req w in
  let supported :=
    validateControllerServiceRequest cs
      ControllerServiceCapability_RPC_CREATE_DELETE_VOLUME = None in
  let refused (msg : string) :=
    run = (Err (status_Error InvalidArgument msg), w) in
  (forall e,
      validateControllerServiceRequest cs
        ControllerServiceCapability_RPC_CREATE_DELETE_VOLUME = Some e ->
      run = (Err e, w))
  /\ (supported -> Name req = "" -> refused "Name missing in request")
  /\ (supported -> Name req <> "" -> VolumeCapabilities req = None ->
      refused "Volume Capabilities missing in request")
  /\ (forall caps,
        supported -> Name req <> "" -> VolumeCapabilities req = Some caps ->
        CreateVolume_mountOptions caps = None ->
        refused "Volume lack of mount access type")
  /\ (forall caps m,
        supported -> Name req <> "" -> VolumeCapabilities req = Some caps ->
        CreateVolume_mountOptions caps = Some m -> FsType m <> "chubaofs" ->
        refused "Volume fstype is not chubaofs").
Proof.
  cbv zeta. unfold CreateVolume.
  assert (Hlen : Name req <> "" ->
                 (String.length (Name req) =? 0)%nat = false).
  { intros Hn. destruct (String.length (Name req) =? 0)%nat eqn:E; [|done].
    by apply cubefs_spec.length_zero_empty in E. }
  split_and!.
  - intros e ->. reflexivity.
  - intros -> ->. reflexivity.
  - intros -> Hn ->. by rewrite (Hlen Hn).
  - intros caps -> Hn -> ->. by rewrite (Hlen Hn).
  - intros caps m -> Hn -> -> Hfs. rewrite (Hlen Hn). cbn [GetFsType].
    destruct (Z.eqb_spec (strings_Compare (FsType m) "chubaofs") 0) as [H|H];
      [|reflexivity].
    by apply chubaofs_spec.strings_Compare_eq in H.
Qed.

(** X22. The capacity a successful [CreateVolume] reports is covered by what
    the cluster was asked for: it is at least the required bytes and at
    least one GiB, at most the [k] GiB of the call made, and less than one
    GiB below them. *)
Theorem CreateVolume_capacity_granted (cs : controllerServer)
    (req : CreateVolumeRequest) w (resp : CreateVolumeResponse) :
  (CreateVolume (observed_cluster createOrDeleteVolume) cs req w).1 = Ok resp ->
  exists k,
    call_capacityGB <$>
      trace (CreateVolume (observed_cluster createOrDeleteVolume) cs req w).2
    = (call_capacityGB <$> trace w) ++ [k]
    /\ GetRequiredBytes (CapacityRange_ req) <= CapacityBytes (Volume_ resp)
    /\ GIB <= CapacityBytes (Volume_ resp)
    /\ CapacityBytes (Volume_ resp) <= k * GIB
    /\ k * GIB < CapacityBytes (Volume_ resp) + GIB.
Proof.
  destruct (chubaofs_spec.CreateVolume_rejected_or_accepted
              (observed_cluster createOrDeleteVolume) cs req w)
    as [[msg Hrej] | [Hpass [k Hround]]].
  - rewrite Hrej. discriminate.
  - rewrite (chubaofs_spec.CreateVolume_accepted _ cs req w k Hpass Hround).
    rewrite observed_cluster_run.
    destruct (createOrDeleteVolume _ _ _ _ _ (erase w)) as [[e|] w'];
      [discriminate|].
    intros [= <-]. cbn [fst snd Volume_ CapacityBytes trace ext].
    exists k. rewrite fmap_app.
    apply chubaofs_spec.RoundUpSizeInt_Ok in Hround as [Hle Hmin];
      [|unfold MinVolumeSize; lia].
    unfold MinVolumeSize in *. split_and!; [reflexivity|lia|lia|exact Hle|].
    specialize (Hmin (k - 1)). rewrite chubaofs_spec.GIB_value in *. lia.
Qed.

(** X23. When several capabilities carry mount options, those of the last
    one decide: if it asks for "chubaofs" the request passes the checks,
    whatever filesystem type an earlier capability names, and if it asks
    for anything else the request is refused, whatever the earlier ones
    say. *)
Theorem CreateVolume_last_mount_decides (cs : controllerServer)
    (req : CreateVolumeRequest) w pre cap post m :
  validateControllerServiceRequest cs
    ControllerServiceCapability_RPC_CREATE_DELETE_VOLUME = None ->
  Name req <> "" ->
  VolumeCapabilities req = Some (pre ++ cap :: post) ->
  GetMount cap = Some m ->
  (forall c, c ∈ post -> GetMount c = None) ->
  (FsType m = "chubaofs" -> passes_checks cs req)
  /\ (FsType m <> "chubaofs" ->
      CreateVolume (observed_cluster createOrDeleteVolume) cs req w =
      (Err (status_Error InvalidArgument "Volume fstype is not chubaofs"), w)).
Proof.
  intros Hval Hname Hcaps Hcap Hpost.
  assert (Hsel : CreateVolume_mountOptions (pre ++ cap :: post) = Some m).
  { rewrite chubaofs_spec.CreateVolume_mountOptions_last.
    rewrite omap_app. cbn [omap list_omap]. rewrite Hcap.
    assert (Hnil : omap GetMount post = []).
    { clear -Hpost. induction post as [|c post IH]; [reflexivity|].
      cbn [omap list_omap]. rewrite (Hpost c) by (apply elem_of_cons; by left).
      apply IH. intros c' Hc'. apply Hpost. apply elem_of_cons. by right. }
    change (omap GetMount post) with (omap GetMount post) in Hnil.
    cbn [omap] in Hnil |- *. rewrite Hnil. apply last_snoc. }
  split.
  - intros Hfs. split_and!; [exact Hval | exact Hname |].
    by exists (pre ++ cap :: post), m.
  - intros Hfs. unfold CreateVolume. rewrite Hval.
    destruct (String.length (Name req) =? 0)%nat eqn:E.
    { by apply cubefs_spec.length_zero_empty in E. }
    rewrite Hcaps, Hsel. cbn [GetFsType].
    destruct (Z.eqb_spec (strings_Compare (FsType m) "chubaofs") 0) as [H|H];
      [|reflexivity].
    by apply chubaofs_spec.strings_Compare_eq in H.
Qed.

End lifecycle.

(** *** The statements at concrete inputs *)
Import samples.

Lemma DeleteVolume_no_master_address_witness :
  let run :=
    DeleteVolume (observed_cluster willing_cluster) (fun _ => "req")
      orphan_controller delete_request (fresh_world tt) in
  (exists msg, run.1 = Err (status_Error InvalidArgument msg))
  /\ trace run.2 = trace (fresh_world tt : World (unit * list cluster_call)).
Proof.
  apply (DeleteVolume_no_master_address willing_cluster (fun _ => "req")
           orphan_controller delete_request (fresh_world tt)).
  reflexivity.
Defined.

Lemma DeleteVolume_forwards_witness :
  let run :=
    DeleteVolume (observed_cluster unwilling_cluster) (fun _ => "req")
      controller delete_request (fresh_world tt) in
  trace run.2 =
    [mk_cluster_call deleteVolumeRequest "10.0.0.1:17010" "pvc-1" "chubaofs" 0]
  /\ run.1 = Err (fmt_Errorf "no space left").
Proof.
  apply (DeleteVolume_forwards unwilling_cluster (fun _ => "req") controller
           delete_request (fresh_world tt)).
  - reflexivity.
  - discriminate.
Defined.

Lemma CreateVolume_success_needs_cluster_witness :
  passes_checks controller (create_request "chubaofs" 5)
  /\ exists k,
       trace (CreateVolume (observed_cluster willing_cluster) controller
                (create_request "chubaofs" 5) (fresh_world tt)).2
       = [mk_cluster_call createVolumeRequest "10.0.0.1:17010" "pvc-1"
            "chubaofs" k]
       /\ (willing_cluster createVolumeRequest "10.0.0.1:17010" "pvc-1"
             "chubaofs" k (mk_World tt [])).1 = None.
Proof.
  eapply (CreateVolume_success_needs_cluster willing_cluster controller
            (create_request "chubaofs" 5) (fresh_world tt)).
  reflexivity.
Defined.

Lemma CreateVolume_cluster_error_witness :
  (CreateVolume (observed_cluster unwilling_cluster) controller
     (create_request "chubaofs" 5) (fresh_world tt)).1
  = Err (fmt_Errorf "no space left").
Proof.
  apply CreateVolume_cluster_error.
  - apply chubaofs_spec.create_request_passes_checks.
  - simpl. lia.
  - reflexivity.
Defined.

Lemma CreateVolume_capacity_granted_witness :
  exists k,
    call_capacityGB <$>
      trace (CreateVolume (observed_cluster willing_cluster) controller
               (create_request "chubaofs" 1610612736) (fresh_world tt)).2
    = [k]
    /\ 1610612736 <= 1610612736
    /\ GIB <= 1610612736
    /\ 1610612736 <= k * GIB
    /\ k * GIB < 1610612736 + GIB.
Proof.
  eapply (CreateVolume_capacity_granted willing_cluster controller
            (create_request "chubaofs" 1610612736) (fresh_world tt)
            {| Volume_ := {| VolumeId := "pvc-1";
                             CapacityBytes := 1610612736;
                             VolumeContext := {[ "zoneName" := "z1" ]} |} |}).
  reflexivity.
Defined.

Lemma CreateVolume_last_mount_decides_witness :
  passes_checks controller two_mounts_request.
Proof.
  refine (proj1 (CreateVolume_last_mount_decides willing_cluster controller
                   two_mounts_request (fresh_world tt)
                   [mount_capability "ext4"] (mount_capability "chubaofs")
                   [block_capability] _ _ _ _ _ _) _);
    try reflexivity; try discriminate.
  intros c Hc. apply elem_of_cons in Hc as [->|Hc]; [reflexivity|].
  by apply elem_of_nil in Hc.
Defined.

(** An ext4 mount first does not matter; an ext4 mount last does. *)
Lemma CreateVolume_last_mount_decides_example :
  (exists resp,
      (CreateVolume (observed_cluster willing_cluster) controller
         two_mounts_request (fresh_world tt)).1 = Ok resp)
  /\ (CreateVolume (observed_cluster willing_cluster) controller
        {| Name := "pvc-3"; CapacityRange_ := None;
           VolumeCapabilities :=
             Some [mount_capability "chubaofs"; mount_capability "ext4"];
           Parameters := ∅ |} (fresh_world tt)).1
     = Err (status_Error InvalidArgument "Volume fstype is not chubaofs").
Proof. split; [eexists|]; reflexivity. Qed.

End chubaofs_more.
